(** * Clickstream pipeline: sessions, attribution and monitoring

    A shallow embedding of the cleaning stage and the DuckDB views of
    [part2-transformation/clean_and_analyze.py], of the views of
    [part3-analysis/business_analysis.py] and of the checks of
    [part4-monitoring/monitoring.py].

    Conventions of the embedding.
    - A data frame or SQL table is a [list] of rows in table order.
    - SQL NULL, Python [None] and pandas NaN are [None] (for payload values,
      [JNull]).
    - A timestamp is a count of microseconds since the Unix epoch ([Z]), the
      resolution DuckDB stores; an interval of n days is n * 86400 * 10^6
      microseconds (UTC session).
    - DOUBLE and Python float values are exact rationals ([Q]); rounding is
      outside the model, and a zero divisor is given its IEEE result where
      the code can reach one ([double_div]).
    - Where SQL leaves the order of ties open (ORDER BY on equal keys) the
      model keeps table order. *)

From Stdlib Require Import List Bool ZArith QArith Lia String Ascii.
From Stdlib Require Import Permutation Sorted Lqa.
Import ListNotations.
Open Scope string_scope.
Open Scope list_scope.
Open Scope Z_scope.

Set Implicit Arguments.
Set Warnings "-register-all".

(** ** Generic SQL / Python helpers *)

(** SQL [COALESCE(x, d)]. *)
Definition coalesce {A : Type} (x : option A) (d : A) : A :=
  match x with Some v => v | None => d end.

(** SQL [COALESCE(x, y)] with a nullable second argument. *)
Definition coalesce_opt {A : Type} (x y : option A) : option A :=
  match x with Some v => Some v | None => y end.

(** SQL [SUM]: NULL inputs are skipped; NULL when no non-NULL input. *)
Fixpoint sql_sum_from (acc : option Q) (l : list (option Q)) : option Q :=
  match l with
  | [] => acc
  | None :: r => sql_sum_from acc r
  | Some x :: r =>
      sql_sum_from (Some (match acc with Some a => Qplus a x | None => x end)) r
  end.

Definition sql_sum (l : list (option Q)) : option Q := sql_sum_from None l.

Definition Qlt_bool (a b : Q) : bool := negb (Qle_bool b a).

Definition opt_string_eqb (a b : option string) : bool :=
  match a, b with
  | Some x, Some y => String.eqb x y
  | None, None => true
  | _, _ => false
  end.

Definition opt_Z_eqb (a b : option Z) : bool :=
  match a, b with
  | Some x, Some y => Z.eqb x y
  | None, None => true
  | _, _ => false
  end.

(** SQL [a = b] under a WHERE: NULL on either side is not a match. *)
Definition sql_string_eq (a b : option string) : bool :=
  match a, b with
  | Some x, Some y => String.eqb x y
  | _, _ => false
  end.

(** ** Parsed payloads

    [event_data_parsed] is what [json.loads] returned: a Python object.  JSON
    [null] and Python [None] are the same object, [JNull]; an object is the
    list of the items of the dict (keys distinct). *)

Inductive json : Type :=
| JNull : json
| JBool : bool -> json
| JNum : Q -> json
| JStr : string -> json
| JArr : list json -> json
| JObj : list (string * json) -> json.

(** Python truthiness, as used by [x or y]. *)
Definition truthy (v : json) : bool :=
  match v with
  | JNull => false
  | JBool b => b
  | JNum q => negb (Z.eqb (Qnum q) 0)
  | JStr s => negb (String.eqb s EmptyString)
  | JArr l => match l with [] => false | _ => true end
  | JObj l => match l with [] => false | _ => true end
  end.

(** Python [a or b]. *)
Definition py_or (a b : json) : json := if truthy a then a else b.

Fixpoint dict_lookup (k : string) (kvs : list (string * json)) : option json :=
  match kvs with
  | [] => None
  | (k', v) :: r => if String.eqb k k' then Some v else dict_lookup k r
  end.

(** *** Text to number

    [float(s)] and [pd.to_numeric] on a string, for plain decimal literals:
    surrounding ASCII white space, an optional sign, digits with an optional
    fractional part.  Other spellings (exponents, [inf], [nan]) are treated
    as unparseable. *)

Definition is_space (c : ascii) : bool :=
  let n := nat_of_ascii c in
  ((9 <=? n) && (n <=? 13) || (n =? 32))%nat.

Fixpoint lstrip (s : string) : string :=
  match s with
  | String c r => if is_space c then lstrip r else s
  | EmptyString => EmptyString
  end.

Fixpoint rstrip (s : string) : string :=
  match s with
  | EmptyString => EmptyString
  | String c r =>
      match rstrip r with
      | EmptyString => if is_space c then EmptyString else String c EmptyString
      | r' => String c r'
      end
  end.

Definition strip (s : string) : string := rstrip (lstrip s).

Definition digit_of (c : ascii) : option Z :=
  let n := nat_of_ascii c in
  if ((48 <=? n) && (n <=? 57))%nat then Some (Z.of_nat (n - 48)) else None.

(** Reads digits; returns the value, the number of digits and the rest. *)
Fixpoint read_digits (acc : Z) (cnt : nat) (s : string) : Z * nat * string :=
  match s with
  | String c r =>
      match digit_of c with
      | Some d => read_digits (10 * acc + d) (S cnt) r
      | None => (acc, cnt, s)
      end
  | EmptyString => (acc, cnt, s)
  end.

Definition unsigned_decimal (s : string) : option Q :=
  let '(ip, ni, r) := read_digits 0 0%nat s in
  match r with
  | EmptyString => if (ni =? 0)%nat then None else Some (inject_Z ip)
  | String "." r' =>
      let '(fp, nf, r'') := read_digits 0 0%nat r' in
      match r'' with
      | EmptyString =>
          if ((ni + nf)%nat =? 0)%nat then None
          else Some (Qmake (ip * 10 ^ Z.of_nat nf + fp)
                           (Z.to_pos (10 ^ Z.of_nat nf)))
      | _ => None
      end
  | _ => None
  end.

Definition py_float_of_str (s : string) : option Q :=
  match strip s with
  | String "-" r => option_map Qopp (unsigned_decimal r)
  | String "+" r => unsigned_decimal r
  | r => unsigned_decimal r
  end.

(** [float(v)] inside a [try]: [None] stands for the exception. *)
Definition py_float (v : json) : option Q :=
  match v with
  | JNum q => Some q
  | JBool b => Some (if b then 1%Q else 0%Q)
  | JStr s => py_float_of_str s
  | JNull | JArr _ | JObj _ => None
  end.

(** [pd.to_numeric(col, errors="coerce")] on one cell. *)
Definition to_numeric (v : json) : option Q := py_float v.

Definition of_float (x : option Q) : json :=
  match x with Some q => JNum q | None => JNull end.

(** ** Cleaning helpers of part 2 (step 2.5) *)

(** [extract_price]: the first of the five keys that is present decides. *)
Fixpoint extract_price_keys (keys : list string) (d : list (string * json))
  : option Q :=
  match keys with
  | [] => None
  | k :: ks =>
      match dict_lookup k d with
      | Some v => py_float v
      | None => extract_price_keys ks d
      end
  end.

Definition extract_price (event_data_parsed : json) : option Q :=
  match event_data_parsed with
  | JObj d => extract_price_keys ["price"; "total"; "revenue"; "amount"; "value"] d
  | _ => None
  end.

Definition get_key (ed : json) (key : string) : json :=
  match ed with
  | JObj d => coalesce (dict_lookup key d) JNull
  | _ => JNull
  end.

(** The [values] list of [extract_from_items]. *)
Fixpoint item_values (key : string) (items : list json) : list json :=
  match items with
  | [] => []
  | JObj d :: r =>
      match dict_lookup key d with
      | Some v => v :: item_values key r
      | None => item_values key r
      end
  | _ :: r => item_values key r
  end.

(** [sum(float(v) for v in values if v is not None)] inside a [try]. *)
Fixpoint sum_floats (acc : Q) (values : list json) : option Q :=
  match values with
  | [] => Some acc
  | JNull :: r => sum_floats acc r
  | v :: r =>
      match py_float v with
      | Some x => sum_floats (Qplus acc x) r
      | None => None
      end
  end.

Definition is_numeric_key (key : string) : bool :=
  String.eqb key "quantity" || String.eqb key "price" || String.eqb key "total".

Definition extract_from_items (ed : json) (key : string) : json :=
  match ed with
  | JObj d =>
      match dict_lookup "items" d with
      | Some (JArr (i :: items)) =>
          match item_values key (i :: items) with
          | [] => JNull
          | v :: vs =>
              if is_numeric_key key then of_float (sum_floats 0%Q (v :: vs))
              else v
          end
      | _ => JNull
      end
  | _ => JNull
  end.

(** ** Rows *)

(** A row of the combined frame before parsing (steps 1 to 2.3). *)
Record raw_event : Type := {
  raw_source_file : string;
  raw_timestamp : option string;
  raw_event_name : option string;
  raw_event_data : option string;
  raw_page_url : option string;
  raw_referrer : option string;
  raw_client_id : option string;
  raw_user_agent : option string
}.

(** A row of [analytics_events_enriched].  The columns the cleaning stage
    derives from the payload ([price], [quantity], [unit_price], [total])
    are the functions below. *)
Record event : Type := {
  source_file : string;
  client_id : option string;
  timestamp_utc : option Z;
  event_name : option string;
  event_data : option string;
  event_data_parsed : json;
  user_agent : option string;
  utm_source : option string;
  utm_medium : option string;
  utm_campaign : option string
}.

(** [events["price"]] (lines 180 and 222). *)
Definition price (e : event) : option Q :=
  to_numeric (of_float (extract_price (event_data_parsed e))).

(** [events["quantity"]] before the cast (lines 188-190). *)
Definition quantity_raw (e : event) : json :=
  py_or (get_key (event_data_parsed e) "quantity")
        (extract_from_items (event_data_parsed e) "quantity").

(** [events["quantity"]] after the cast of line 224. *)
Definition quantity (e : event) : option Q := to_numeric (quantity_raw e).

(** [events["unit_price"]] (lines 203-205). *)
Definition unit_price (e : event) : json :=
  py_or (of_float (extract_price (event_data_parsed e)))
        (extract_from_items (event_data_parsed e) "price").

(** [events["total"]] (lines 207-210 and 223): the product, NaN when either
    factor is. *)
Definition total (e : event) : option Q :=
  match to_numeric (unit_price e), to_numeric (quantity_raw e) with
  | Some u, Some q => Some (Qmult u q)
  | _, _ => None
  end.

Definition is_purchase (e : event) : bool :=
  sql_string_eq (event_name e) (Some "purchase").

(** ** Step 2.3: the Deduplicator

    [events.drop_duplicates(subset=dup_subset_existing, keep="first")].
    Every column of [DUP_SUBSET] exists in the frame at that point (the
    canonical columns are created in step 1), so the key has all seven.
    pandas compares missing values as equal. *)

Definition DUP_SUBSET : list string :=
  ["source_file"; "timestamp"; "event_name"; "event_data"; "page_url";
   "referrer"; "client_id"].

Definition dup_key (r : raw_event) :=
  (raw_source_file r, raw_timestamp r, raw_event_name r, raw_event_data r,
   raw_page_url r, raw_referrer r, raw_client_id r).

Definition dup_key_eqb (a b : raw_event) : bool :=
  String.eqb (raw_source_file a) (raw_source_file b)
  && opt_string_eqb (raw_timestamp a) (raw_timestamp b)
  && opt_string_eqb (raw_event_name a) (raw_event_name b)
  && opt_string_eqb (raw_event_data a) (raw_event_data b)
  && opt_string_eqb (raw_page_url a) (raw_page_url b)
  && opt_string_eqb (raw_referrer a) (raw_referrer b)
  && opt_string_eqb (raw_client_id a) (raw_client_id b).

(** The key the specification names: four of the seven columns. *)
Definition spec_key (r : raw_event) :=
  (raw_source_file r, raw_timestamp r, raw_event_name r, raw_event_data r).

(** [seen] holds the rows met so far. *)
Fixpoint drop_duplicates_from (seen l : list raw_event) : list raw_event :=
  match l with
  | [] => []
  | r :: rest =>
      if existsb (fun x => dup_key_eqb x r) seen
      then drop_duplicates_from (r :: seen) rest
      else r :: drop_duplicates_from (r :: seen) rest
  end.

Definition drop_duplicates (l : list raw_event) : list raw_event :=
  drop_duplicates_from [] l.

Definition dropped_dupes (l : list raw_event) : nat :=
  (List.length l - List.length (drop_duplicates l))%nat.

(** ** Device view (part 2, [analytics_events_with_device]; part 3,
    [SQL_REVENUE_BY_DEVICE]) *)

Definition lower_ascii (c : ascii) : ascii :=
  let n := nat_of_ascii c in
  if ((65 <=? n) && (n <=? 90))%nat then ascii_of_nat (n + 32) else c.

(** SQL [lower], on ASCII letters. *)
Fixpoint lower (s : string) : string :=
  match s with
  | EmptyString => EmptyString
  | String c r => String (lower_ascii c) (lower r)
  end.

Fixpoint contains (pat s : string) : bool :=
  String.prefix pat s ||
  match s with
  | EmptyString => false
  | String _ r => contains pat r
  end.

(** [lower(user_agent) LIKE '%tok%']; NULL is not a match. *)
Definition ua_like (user_agent : option string) (tok : string) : bool :=
  match user_agent with
  | Some ua => contains tok (lower ua)
  | None => false
  end.

Definition device_type (user_agent : option string) : string :=
  if ua_like user_agent "ipad" then "tablet"
  else if ua_like user_agent "iphone" then "mobile"
  else if ua_like user_agent "android" && ua_like user_agent "mobile" then "mobile"
  else if ua_like user_agent "android" then "tablet"
  else if ua_like user_agent "mobile" then "mobile"
  else if ua_like user_agent "windows" || ua_like user_agent "macintosh"
          || ua_like user_agent "x11" then "desktop"
  else "unknown".

(** ** Ordering rows *)

(** Stable insertion sort: [e] goes after the rows that come strictly before
    it and ahead of everything else, so ties keep table order. *)
Fixpoint insert_by {A : Type} (before : A -> A -> bool) (e : A) (l : list A)
  : list A :=
  match l with
  | [] => [e]
  | x :: r => if before x e then x :: insert_by before e r else e :: x :: r
  end.

Definition sort_by {A : Type} (before : A -> A -> bool) (l : list A) : list A :=
  fold_right (insert_by before) [] l.

(** [ORDER BY ts ASC], NULLs last. *)
Definition ts_asc (a b : option Z) : bool :=
  match a, b with
  | Some x, Some y => x <? y
  | Some _, None => true
  | None, _ => false
  end.

(** [ORDER BY ts DESC], NULLs last. *)
Definition ts_desc (a b : option Z) : bool :=
  match a, b with
  | Some x, Some y => y <? x
  | Some _, None => true
  | None, _ => false
  end.

(** ** Sessionization ([analytics_sessions], [sessions_simple]) *)

Definition SESSION_GAP_SECONDS : Z := 1800.
Definition MICROS_PER_SEC : Z := 1000000.

(** Whole seconds of a timestamp: the instant truncated to its second,
    rounding down (also before the epoch). *)
Definition epoch_seconds (t : Z) : Z := t / MICROS_PER_SEC.

(** [datediff('second', a, b)]: the number of second boundaries between the
    two instants, i.e. the difference of their whole seconds. *)
Definition datediff_second (a b : option Z) : option Z :=
  match a, b with
  | Some x, Some y => Some (epoch_seconds y - epoch_seconds x)
  | _, _ => None
  end.

(** The CASE of the [flagged] CTE. *)
Definition new_session_flag (prev_ts ts : option Z) : Z :=
  match prev_ts with
  | None => 1
  | Some _ =>
      match datediff_second prev_ts ts with
      | Some d => if d >? SESSION_GAP_SECONDS then 1 else 0
      | None => 0
      end
  end.

(** The rows of one client in window order
    ([PARTITION BY client_id ORDER BY timestamp_utc], [client_id IS NOT NULL]). *)
Definition client_partition (c : string) (evs : list event) : list event :=
  sort_by (fun x y => ts_asc (timestamp_utc x) (timestamp_utc y))
          (filter (fun e => sql_string_eq (client_id e) (Some c)) evs).

(** [new_session_flag] along a partition; [prev] is [lag(timestamp_utc)]. *)
Fixpoint flags_from (prev : option Z) (rows : list event) : list Z :=
  match rows with
  | [] => []
  | e :: r =>
      new_session_flag prev (timestamp_utc e) :: flags_from (timestamp_utc e) r
  end.

(** [sum(flag) OVER (... ROWS BETWEEN UNBOUNDED PRECEDING AND CURRENT ROW)]. *)
Fixpoint running_sum (acc : Z) (l : list Z) : list Z :=
  match l with
  | [] => []
  | x :: r => (acc + x) :: running_sum (acc + x) r
  end.

(** [session_seq] of each row of a partition, in window order. *)
Definition session_seqs (rows : list event) : list Z :=
  running_sum 0 (flags_from None rows).

(** The [sequenced] CTE for one client: each row with its [session_seq]. *)
Definition sequenced (c : string) (evs : list event) : list (event * Z) :=
  combine (client_partition c evs) (session_seqs (client_partition c evs)).

(** ** Attribution ([analytics_purchase_attribution], [purchase_attribution]) *)

Definition MICROS_PER_DAY : Z := 86400 * MICROS_PER_SEC.

(** [INTERVAL '7 days']. *)
Definition LOOKBACK : Z := 7 * MICROS_PER_DAY.

(** [x BETWEEN lo AND hi]; NULL is not a match. *)
Definition between (x lo hi : option Z) : bool :=
  match x, lo, hi with
  | Some a, Some l, Some h => (l <=? a) && (a <=? h)
  | _, _, _ => false
  end.

Definition is_some {A : Type} (x : option A) : bool :=
  match x with Some _ => true | None => false end.

(** The WHERE clause shared by the six correlated subqueries. *)
Definition is_touch_candidate (p t : event) : bool :=
  sql_string_eq (client_id t) (client_id p)
  && between (timestamp_utc t)
             (option_map (fun tp => tp - LOOKBACK) (timestamp_utc p))
             (timestamp_utc p)
  && is_some (utm_source t).

Definition touch_candidates (evs : list event) (p : event) : list event :=
  filter (is_touch_candidate p) evs.

(** [ORDER BY t.timestamp ASC LIMIT 1]. *)
Definition first_touch (evs : list event) (p : event) : option event :=
  hd_error (sort_by (fun x y => ts_asc (timestamp_utc x) (timestamp_utc y))
                    (touch_candidates evs p)).

(** [ORDER BY t.timestamp DESC LIMIT 1]. *)
Definition last_touch (evs : list event) (p : event) : option event :=
  hd_error (sort_by (fun x y => ts_desc (timestamp_utc x) (timestamp_utc y))
                    (touch_candidates evs p)).

(** The value of a scalar subquery selecting column [col]. *)
Definition scalar (col : event -> option string) (row : option event)
  : option string :=
  match row with Some t => col t | None => None end.

Record attributed_purchase : Type := {
  purchase : event;
  revenue : Q;
  first_utm_source : option string;
  first_utm_medium : option string;
  first_utm_campaign : option string;
  last_utm_source : option string;
  last_utm_medium : option string;
  last_utm_campaign : option string
}.

(** One output row of the view for the purchase [p]. *)
Definition attribute (rev : event -> Q) (evs : list event) (p : event)
  : attributed_purchase :=
  {| purchase := p;
     revenue := rev p;
     first_utm_source := scalar utm_source (first_touch evs p);
     first_utm_medium := scalar utm_medium (first_touch evs p);
     first_utm_campaign := scalar utm_campaign (first_touch evs p);
     last_utm_source := scalar utm_source (last_touch evs p);
     last_utm_medium := scalar utm_medium (last_touch evs p);
     last_utm_campaign := scalar utm_campaign (last_touch evs p) |}.

(** Part 2: [COALESCE(total, 0.0) AS revenue]. *)
Definition revenue_part2 (p : event) : Q := coalesce (total p) 0%Q.

(** Part 3: [COALESCE(price, total, 0.0) AS revenue]. *)
Definition revenue_part3 (p : event) : Q :=
  coalesce (coalesce_opt (price p) (total p)) 0%Q.

(** Part 2, view [analytics_purchase_attribution]. *)
Definition analytics_purchase_attribution (evs : list event)
  : list attributed_purchase :=
  map (attribute revenue_part2 evs) (filter is_purchase evs).

(** Part 3, view [purchase_attribution]. *)
Definition purchase_attribution (evs : list event) : list attributed_purchase :=
  map (attribute revenue_part3 evs) (filter is_purchase evs).

(** Step 4 of part 2: the two sides of the reconciliation. *)
Definition raw_revenue (evs : list event) : Q :=
  coalesce
    (sql_sum (map (fun e => Some (coalesce (total e) 0%Q)) (filter is_purchase evs)))
    0%Q.

Definition attrib_revenue (evs : list event) : Q :=
  coalesce
    (sql_sum (map (fun a => Some (revenue a)) (analytics_purchase_attribution evs)))
    0%Q.

(** ** Monitoring (part 4) *)

Definition BASELINE_DAYS : nat := 7.
Definition MAX_NULL_CLIENT_RATE : Q := 20 # 100.
Definition MAX_DUP_RATE : Q := 1 # 1000.
Definition MAX_JSON_ERROR_RATE : Q := 1 # 100.
Definition MAX_DIRECT_SHARE : Q := 80 # 100.
Definition MAX_REV_DROP : Q := 40 # 100.

Inductive severity : Type := WARN | CRITICAL.

(** The alert texts; the formatted numbers are kept as arguments.  The last
    constructor is the direct-traffic text for an infinite share. *)
Inductive message : Type :=
| No_events_ingested_today
| No_purchases_recorded_today
| High_null_client_id_rate (rate : Q)
| Duplicate_rate_high (rate : Q)
| JSON_parse_error_rate_high (rate : Q)
| Revenue_drop_detected (latest baseline : Q)
| Direct_traffic_unusually_high (share : Q)
| Direct_traffic_unusually_high_inf.

(** The report's [status]; the code writes "FAIL" or "PASS", [STATUS_WARN] is
    the third value the specification lists. *)
Inductive status_value : Type := PASS | STATUS_WARN | FAIL.

Record report : Type := {
  date : Z;
  alerts : list (severity * message);
  status : status_value
}.

Inductive exn : Type := ValueError | TypeError.

Inductive result (A : Type) : Type :=
| Ok : A -> result A
| Raise : exn -> result A.
Arguments Ok {A} _.
Arguments Raise {A} _.

Definition bind {A B : Type} (m : result A) (k : A -> result B) : result B :=
  match m with Ok a => k a | Raise e => Raise e end.

Notation "x <- m ;; k" := (bind m (fun x => k))
  (at level 61, m at next level, right associativity).

(** A comparison [x > limit] in Python where [x] came from [fetchone()]:
    [None] raises [TypeError]. *)
Definition gt_or_raise (x : option Q) (limit : Q) : result bool :=
  match x with
  | Some v => Ok (Qlt_bool limit v)
  | None => Raise TypeError
  end.

(** [DATE(timestamp_utc)]: the day number. *)
Definition DATE (ts : option Z) : option Z :=
  option_map (fun t => t / MICROS_PER_DAY) ts.

(** SQL [MAX]. *)
Fixpoint sql_max (l : list (option Z)) : option Z :=
  match l with
  | [] => None
  | x :: r =>
      match x, sql_max r with
      | Some a, Some b => Some (Z.max a b)
      | Some a, None => Some a
      | None, m => m
      end
  end.

(** SQL [AVG] of an integer expression. *)
Definition sql_avg (l : list Z) : option Q :=
  match l with
  | [] => None
  | _ => Some (Qmake (fold_right Z.add 0 l) (Pos.of_nat (List.length l)))
  end.

(** A quotient that has no value on a zero divisor: pandas' mean of no cells
    is NaN, and so is DuckDB's 0/0 of the group counts in [dup_rate] (whose
    divisor is zero only on an empty table). *)
Definition sql_div (a b : option Q) : option Q :=
  match a, b with
  | Some x, Some y => if Qeq_bool y 0 then None else Some (Qdiv x y)
  | _, _ => None
  end.

(** GROUP BY: the groups in order of first appearance, each with its rows. *)
Fixpoint add_to_groups {A : Type} (same : A -> A -> bool) (e : A)
  (gs : list (A * list A)) : list (A * list A) :=
  match gs with
  | [] => [(e, [e])]
  | (k, members) :: r =>
      if same k e then (k, members ++ [e]) :: r
      else (k, members) :: add_to_groups same e r
  end.

Definition group_by {A : Type} (same : A -> A -> bool) (l : list A)
  : list (A * list A) :=
  fold_left (fun gs e => add_to_groups same e gs) l [].

(** [GROUP BY source_file, timestamp_utc, event_name, event_data]. *)
Definition same_dup_group (a b : event) : bool :=
  String.eqb (source_file a) (source_file b)
  && opt_Z_eqb (timestamp_utc a) (timestamp_utc b)
  && opt_string_eqb (event_name a) (event_name b)
  && opt_string_eqb (event_data a) (event_data b).

Definition dup_rate (evs : list event) : option Q :=
  let groups := group_by same_dup_group evs in
  let repeated :=
    filter (fun g => (1 <? List.length (snd g))%nat) groups in
  sql_div (Some (inject_Z (Z.of_nat (List.length repeated))))
          (Some (inject_Z (Z.of_nat (List.length groups)))).

Definition null_client_rate (evs : list event) : option Q :=
  sql_avg (map (fun e => if is_some (client_id e) then 0 else 1) evs).

Definition is_null_json (v : json) : bool :=
  match v with JNull => true | _ => false end.

Definition json_error_rate (evs : list event) : option Q :=
  sql_avg (map (fun e => if is_some (event_data e)
                              && is_null_json (event_data_parsed e)
                         then 1 else 0) evs).

(** [daily_rev]: one row per purchase date, latest first (NULLs last). *)
Definition daily_rev (evs : list event) : list (option Z * option Q) :=
  let groups :=
    group_by (fun a b => opt_Z_eqb (DATE (timestamp_utc a)) (DATE (timestamp_utc b)))
             (filter is_purchase evs) in
  sort_by (fun x y => ts_desc (fst x) (fst y))
          (map (fun g => (DATE (timestamp_utc (fst g)), sql_sum (map total (snd g))))
               groups).

(** pandas [Series.mean()]: NaN cells are skipped; NaN when none is left. *)
Definition mean (l : list (option Q)) : option Q :=
  sql_div (sql_sum l)
          (Some (inject_Z (Z.of_nat (List.length (filter is_some l))))).

(** The body of [if len(daily_rev) > BASELINE_DAYS]. *)
Definition revenue_drop_alert (dr : list (option Z * option Q))
  : list (severity * message) :=
  match nth_error dr 0 with
  | Some (_, Some latest) =>
      match mean (map snd (firstn BASELINE_DAYS (skipn 1 dr))) with
      | Some baseline =>
          if Qlt_bool 0 baseline
             && Qlt_bool MAX_REV_DROP (Qdiv (Qminus baseline latest) baseline)
          then [(CRITICAL, Revenue_drop_detected latest baseline)]
          else []
      | None => []
      end
  | _ => []
  end.

Definition revenue_drop_check (evs : list event) : list (severity * message) :=
  if (BASELINE_DAYS <? List.length (daily_rev evs))%nat
  then revenue_drop_alert (daily_rev evs)
  else [].

Definition is_direct (a : attributed_purchase) : bool :=
  String.eqb (coalesce (last_utm_source a) "direct") "direct".

(** The value of a DOUBLE division: a number, or what IEEE arithmetic gives
    on a zero divisor. *)
Inductive quotient : Type :=
| Finite (q : Q)
| Plus_inf
| Minus_inf
| NaN.

(** SQL [a / b] on DOUBLEs: NULL when an operand is NULL; on a zero divisor
    plus or minus infinity by the sign of the dividend, NaN for 0/0. *)
Definition double_div (a b : option Q) : option quotient :=
  match a, b with
  | Some x, Some y =>
      Some (if Qeq_bool y 0
            then (if Qlt_bool 0 x then Plus_inf
                  else if Qlt_bool x 0 then Minus_inf
                  else NaN)
            else Finite (Qdiv x y))
  | _, _ => None
  end.

Definition direct_share (purchases : list attributed_purchase)
  : option quotient :=
  double_div
    (sql_sum (map (fun a => Some (revenue a)) (filter is_direct purchases)))
    (sql_sum (map (fun a => Some (revenue a)) purchases)).

(** [if direct_share and direct_share > MAX_DIRECT_SHARE]: [None] and 0.0
    are falsy; NaN and the infinities are truthy, and of these only plus
    infinity exceeds the limit. *)
Definition direct_share_check (purchases : list attributed_purchase)
  : list (severity * message) :=
  match direct_share purchases with
  | Some (Finite s) =>
      if truthy (JNum s) && Qlt_bool MAX_DIRECT_SHARE s
      then [(WARN, Direct_traffic_unusually_high s)]
      else []
  | Some Plus_inf => [(WARN, Direct_traffic_unusually_high_inf)]
  | Some Minus_inf | Some NaN | None => []
  end.

Definition is_critical (a : severity * message) : bool :=
  match fst a with CRITICAL => true | WARN => false end.

(** The ["status"] entry of the report. *)
Definition report_status (alerts : list (severity * message)) : status_value :=
  if existsb is_critical alerts then FAIL else PASS.

(** Section 1, pipeline health. *)
Definition pipeline_health (evs : list event) : list (severity * message) :=
  (if (List.length evs =? 0)%nat then [(CRITICAL, No_events_ingested_today)] else [])
  ++ (if (List.length (filter is_purchase evs) =? 0)%nat
      then [(CRITICAL, No_purchases_recorded_today)] else []).

Definition when (b : bool) (a : severity * message) : list (severity * message) :=
  if b then [a] else [].

(** The whole script: the two tables it loads, the report it writes. *)
Definition monitor (events_enriched : list event)
  (purchases : list attributed_purchase) : result report :=
  match sql_max (map (fun e => DATE (timestamp_utc e)) events_enriched) with
  | None => Raise ValueError
  | Some data_today =>
      let a1 := pipeline_health events_enriched in
      null_high <- gt_or_raise (null_client_rate events_enriched)
                               MAX_NULL_CLIENT_RATE ;;
      let a2 := when null_high
        (WARN, High_null_client_id_rate
                 (coalesce (null_client_rate events_enriched) 0%Q)) in
      dup_high <- gt_or_raise (dup_rate events_enriched) MAX_DUP_RATE ;;
      let a3 := when dup_high
        (WARN, Duplicate_rate_high (coalesce (dup_rate events_enriched) 0%Q)) in
      json_high <- gt_or_raise (json_error_rate events_enriched)
                               MAX_JSON_ERROR_RATE ;;
      let a4 := when json_high
        (WARN, JSON_parse_error_rate_high
                 (coalesce (json_error_rate events_enriched) 0%Q)) in
      let a5 := revenue_drop_check events_enriched in
      let a6 := direct_share_check purchases in
      let alerts := a1 ++ a2 ++ a3 ++ a4 ++ a5 ++ a6 in
      Ok {| date := data_today;
            alerts := alerts;
            status := report_status alerts |}
  end.

(** Parts 2 and 4 chained: the monitor on the tables part 2 exports. *)
Definition run_monitor (evs : list event) : result report :=
  monitor evs (analytics_purchase_attribution evs).

(** ** More of part 2 and part 1 *)

(** The OPERATING SYSTEM column of [analytics_events_with_device]. *)
Definition os (user_agent : option string) : string :=
  if ua_like user_agent "iphone" || ua_like user_agent "ipad" then "iOS"
  else if ua_like user_agent "android" then "Android"
  else if ua_like user_agent "windows nt" then "Windows"
  else if ua_like user_agent "mac os x" && negb (ua_like user_agent "iphone")
       then "MacOS"
  else if ua_like user_agent "linux" then "Linux"
  else "Other".

(** The BROWSER column of [analytics_events_with_device]. *)
Definition browser (user_agent : option string) : string :=
  if ua_like user_agent "crios" then "Chrome (iOS)"
  else if ua_like user_agent "fxios" then "Firefox (iOS)"
  else if ua_like user_agent "edgios" then "Edge (iOS)"
  else if ua_like user_agent "chrome" && negb (ua_like user_agent "edg")
       then "Chrome"
  else if ua_like user_agent "safari" && negb (ua_like user_agent "chrome")
       then "Safari"
  else if ua_like user_agent "firefox" then "Firefox"
  else if ua_like user_agent "edg" then "Edge"
  else "Other".

(** Part 2, query 6: the CASE of "Assisted vs Direct". *)
Definition conversion_type (a : attributed_purchase) : string :=
  if negb (is_some (first_utm_source a)) then "Pure Direct"
  else if sql_string_eq (first_utm_source a) (last_utm_source a)
       then "Single Channel"
  else "Assisted Conversion".

Definition null_or_direct (x : option string) : bool :=
  match x with None => true | Some s => String.eqb s "direct" end.

(** Part 3, [SQL_ASSISTED_DIRECT]. *)
Definition assisted_direct (a : attributed_purchase) : string :=
  if null_or_direct (first_utm_source a) && null_or_direct (last_utm_source a)
  then "Pure Direct"
  else if sql_string_eq (first_utm_source a) (last_utm_source a)
       then "Single Channel"
  else "Assisted Conversion".

(** [ORDER BY revenue DESC], NULLs last. *)
Definition revenue_desc (a b : option Q) : bool :=
  match a, b with
  | Some x, Some y => Qlt_bool y x
  | Some _, None => true
  | None, _ => false
  end.

Record channel_row : Type := {
  channel : string;
  channel_revenue : option Q;
  purchases : nat
}.

(** Step 3.6: [GROUP BY COALESCE(col, 'direct')] with [SUM(revenue)] and
    [COUNT] per group, [ORDER BY revenue DESC]. *)
Definition channel_rollup (col : attributed_purchase -> option string)
  (rows : list attributed_purchase) : list channel_row :=
  sort_by (fun x y => revenue_desc (channel_revenue x) (channel_revenue y))
    (map (fun g =>
            {| channel := coalesce (col (fst g)) "direct";
               channel_revenue := sql_sum (map (fun a => Some (revenue a)) (snd g));
               purchases := List.length (snd g) |})
         (group_by (fun a b => String.eqb (coalesce (col a) "direct")
                                          (coalesce (col b) "direct"))
                   rows)).

Definition analytics_channel_revenue_last_click (evs : list event)
  : list channel_row :=
  channel_rollup last_utm_source (analytics_purchase_attribution evs).

Definition analytics_channel_revenue_first_click (evs : list event)
  : list channel_row :=
  channel_rollup first_utm_source (analytics_purchase_attribution evs).

(** SQL [MIN]. *)
Fixpoint sql_min (l : list (option Z)) : option Z :=
  match l with
  | [] => None
  | x :: r =>
      match x, sql_min r with
      | Some a, Some b => Some (Z.min a b)
      | Some a, None => Some a
      | None, m => m
      end
  end.

(** The rows of session [s] of client [c]
    ([PARTITION BY client_id, session_seq]). *)
Definition session_rows (c : string) (evs : list event) (s : Z) : list event :=
  map fst (filter (fun p => snd p =? s) (sequenced c evs)).

Definition session_start (c : string) (evs : list event) (s : Z) : option Z :=
  sql_min (map timestamp_utc (session_rows c evs s)).

Definition session_end (c : string) (evs : list event) (s : Z) : option Z :=
  sql_max (map timestamp_utc (session_rows c evs s)).

Definition session_duration_seconds (c : string) (evs : list event) (s : Z)
  : option Z :=
  datediff_second (session_start c evs s) (session_end c evs s).

(** Part 1, check 10 (purchase price validity); its frame has the same
    [event_name] and [event_data_parsed] columns and the same
    [extract_price]. *)
Definition price_missing (evs : list event) : nat :=
  List.length
    (filter (fun e => negb (is_some (extract_price (event_data_parsed e))))
            (filter is_purchase evs)).

Definition price_zero_neg (evs : list event) : nat :=
  List.length
    (filter (fun e => Qle_bool (coalesce (extract_price (event_data_parsed e)) 0%Q)
                               0%Q)
            (filter is_purchase evs)).

Definition purchase_price_validation (evs : list event) : string :=
  if negb (price_missing evs =? 0)%nat || negb (price_zero_neg evs =? 0)%nat
  then "fail" else "pass".

(** The order of [ORDER BY ts ASC]: NULL after every timestamp. *)
Definition ts_le (a b : option Z) : Prop :=
  match a, b with
  | Some x, Some y => x <= y
  | _, None => True
  | None, Some _ => False
  end.

(** What GROUP BY guarantees of its groups: keys pairwise different, every
    member carrying its group's key. *)
Definition groups_ok {A K : Type} (kf : A -> K) (gs : list (A * list A)) : Prop :=
  NoDup (map (fun g => kf (fst g)) gs)
  /\ forall g m, In g gs -> In m (snd g) -> kf m = kf (fst g).

(** ** Sample rows and tables *)

Definition T0 : Z := 1735689600 * MICROS_PER_SEC.

Definition mk_event (c : option string) (ts : Z) (name : string)
  (payload : json) (utm : option string) : event :=
  {| source_file := "events_20250101.csv";
     client_id := c;
     timestamp_utc := Some ts;
     event_name := Some name;
     event_data := Some "{}";
     event_data_parsed := payload;
     user_agent := Some "Mozilla/5.0 (Windows NT 10.0; Win64; x64)";
     utm_source := utm;
     utm_medium := None;
     utm_campaign := None |}.

Definition order_payload (unit_price qty : Q) : json :=
  JObj [("price", JNum unit_price); ("quantity", JNum qty)].

Definition price_only_purchase : event :=
  mk_event (Some "U1") T0 "purchase" (JObj [("price", JNum 10)]) None.


Definition two_items : event :=
  mk_event (Some "U1") T0 "purchase" (order_payload 10 2) None.

Definition page_view (c : string) : raw_event :=
  {| raw_source_file := "events_20250101.csv";
     raw_timestamp := Some "2025-01-01T00:00:00Z";
     raw_event_name := Some "page_viewed";
     raw_event_data := Some "{}";
     raw_page_url := Some "https://shop.example/";
     raw_referrer := None;
     raw_client_id := Some c;
     raw_user_agent := None |}.

Definition click (ts : Z) : event :=
  mk_event (Some "U1") ts "page_viewed" JNull None.

Definition ad_click : event :=
  mk_event (Some "U1") (T0 - 7 * MICROS_PER_DAY) "page_viewed" JNull (Some "ads").

Definition late_purchase : event :=
  mk_event (Some "U1") T0 "purchase" (order_payload 50 1) None.

Definition anonymous_purchase : event :=
  mk_event None T0 "purchase" (order_payload 10 1) (Some "ads").

Definition day_purchase (days_ago : Z) (amount : Q) : event :=
  mk_event (Some "U1") (T0 - days_ago * MICROS_PER_DAY) "purchase"
           (order_payload amount 1) (Some "ads").

Definition one_day : list event := [day_purchase 0 100].

Definition eight_days : list event :=
  map (fun d => day_purchase d 100) [0; 1; 2; 3; 4; 5; 6; 7].

Definition scenario_U1 : list event :=
  [ mk_event (Some "U1") T0 "page_viewed" JNull (Some "ads");
    mk_event (Some "U1") (T0 + 100 * MICROS_PER_SEC) "purchase"
             (order_payload 50 1) None;
    mk_event (Some "U1") (T0 + 3000 * MICROS_PER_SEC) "purchase"
             (order_payload 20 1) None ].

Definition undated_click : event :=
  {| source_file := "events_20250101.csv"; client_id := Some "U1";
     timestamp_utc := None; event_name := Some "page_viewed";
     event_data := None; event_data_parsed := JNull;
     user_agent := None; utm_source := None; utm_medium := None;
     utm_campaign := None |}.

(** The grouping expression [COALESCE(col, 'direct')]. *)
Definition channel_of (col : attributed_purchase -> option string)
  (a : attributed_purchase) : string := coalesce (col a) "direct".

Definition week_with_drop : list event :=
  day_purchase 0 20 :: map (fun d => day_purchase d 100) [1; 2; 3; 4; 5; 6; 7].

Definition email_click : event :=
  mk_event (Some "U1") (T0 - 3 * MICROS_PER_DAY) "page_viewed" JNull (Some "email").



(** * Properties *)

(** ** Basic facts *)

Lemma opt_string_eqb_spec (a b : option string) :
  opt_string_eqb a b = true <-> a = b.
Proof.
  destruct a as [x|], b as [y|]; simpl; try (split; congruence).
  rewrite String.eqb_eq. split; congruence.
Qed.

Lemma existsb_swap_app {A : Type} (f : A -> bool) (x : A) (l1 l2 : list A) :
  existsb f (l1 ++ x :: l2) = existsb f (x :: l1 ++ l2).
Proof.
  rewrite existsb_app. simpl. rewrite existsb_app.
  destruct (f x), (existsb f l1), (existsb f l2); reflexivity.
Qed.

Lemma In_insert_by {A : Type} (before : A -> A -> bool) (e x : A) (l : list A) :
  In x (insert_by before e l) <-> x = e \/ In x l.
Proof.
  induction l as [|y l IH]; simpl.
  - intuition congruence.
  - destruct (before y e); simpl; rewrite ?IH; intuition congruence.
Qed.

Lemma In_sort_by {A : Type} (before : A -> A -> bool) (x : A) (l : list A) :
  In x (sort_by before l) <-> In x l.
Proof.
  induction l as [|y l IH]; simpl; [tauto|].
  rewrite In_insert_by, IH. intuition congruence.
Qed.

Lemma sort_by_nil_inv {A : Type} (before : A -> A -> bool) (l : list A) :
  sort_by before l = [] -> l = [].
Proof.
  destruct l as [|y l]; [reflexivity|]. simpl.
  destruct (sort_by before l) as [|z s]; simpl; [discriminate|].
  destruct (before z y); discriminate.
Qed.

(** ** Revenue *)

Lemma attribution_rows (rev : event -> Q) (evs ps : list event) :
  map (fun a => (purchase a, revenue a)) (map (attribute rev evs) ps)
  = map (fun p => (p, rev p)) ps.
Proof. rewrite map_map. reflexivity. Qed.

(** C1. Revenue reconciliation in part 2: the attributed revenue total is the
    raw purchase revenue total (NULL totals counted as 0), and the
    attribution view has exactly the purchase rows of the feed, in order. *)
Theorem revenue_reconciliation (evs : list event) :
  attrib_revenue evs = raw_revenue evs
  /\ map purchase (analytics_purchase_attribution evs) = filter is_purchase evs.
Proof.
  unfold attrib_revenue, raw_revenue, analytics_purchase_attribution. split.
  - rewrite map_map. reflexivity.
  - rewrite map_map. apply map_id.
Qed.

(** C5, counterexample.  A purchase whose payload has a price and no quantity:
    [price] is 10 and [total] is NULL, so [coalesce(price, total, 0)] is 10,
    but part 2 records revenue 0. *)
Lemma part2_revenue_ignores_price :
  price price_only_purchase = Some 10%Q
  /\ total price_only_purchase = None
  /\ map revenue (analytics_purchase_attribution [price_only_purchase]) = [0%Q]
  /\ coalesce (coalesce_opt (price price_only_purchase)
                            (total price_only_purchase)) 0%Q = 10%Q
  /\ ~ (0 == 10)%Q.
Proof.
  split; [reflexivity|]. split; [reflexivity|]. split; [reflexivity|].
  split; [reflexivity|]. unfold Qeq; simpl; lia.
Qed.

(** C5, amended.  Each view has one row per purchase event, in feed order, so
    no purchase is excluded; part 3 records [coalesce(price, total, 0)] and
    part 2 records [coalesce(total, 0)]. *)
Theorem purchase_revenue_derivation (evs : list event) :
  map (fun a => (purchase a, revenue a)) (purchase_attribution evs)
  = map (fun p => (p, coalesce (coalesce_opt (price p) (total p)) 0%Q))
        (filter is_purchase evs)
  /\ map (fun a => (purchase a, revenue a)) (analytics_purchase_attribution evs)
     = map (fun p => (p, coalesce (total p) 0%Q)) (filter is_purchase evs).
Proof. split; apply attribution_rows. Qed.




(** ** Deduplicator *)

Lemma dup_key_eqb_spec (a b : raw_event) :
  dup_key_eqb a b = true <-> dup_key a = dup_key b.
Proof.
  unfold dup_key_eqb, dup_key.
  rewrite !andb_true_iff, String.eqb_eq, !opt_string_eqb_spec.
  split.
  - intros [[[[[[H1 H2] H3] H4] H5] H6] H7]. congruence.
  - intros H. injection H as H1 H2 H3 H4 H5 H6 H7. tauto.
Qed.

Lemma drop_duplicates_from_snoc (pre seen : list raw_event) (r : raw_event) :
  drop_duplicates_from seen (pre ++ [r])
  = drop_duplicates_from seen pre
    ++ (if existsb (fun x => dup_key_eqb x r) (seen ++ pre) then [] else [r]).
Proof.
  revert seen. induction pre as [|a pre IH]; intros seen; simpl.
  - rewrite app_nil_r. destruct (existsb _ seen); reflexivity.
  - rewrite IH. rewrite (existsb_swap_app _ a seen pre).
    destruct (existsb (fun x => dup_key_eqb x a) seen); reflexivity.
Qed.

(** C6, counterexample.  Two rows equal on (source_file, timestamp,
    event_name, event_data) and different in [client_id]: the second is kept. *)
Lemma four_columns_do_not_decide :
  spec_key (page_view "U1") = spec_key (page_view "U2")
  /\ drop_duplicates [page_view "U1"; page_view "U2"]
     = [page_view "U1"; page_view "U2"].
Proof. split; reflexivity. Qed.

(** C6, amended.  The Deduplicator removes a row exactly when an earlier row
    is equal to it on the seven columns of [DUP_SUBSET] (source_file,
    timestamp, event_name, event_data, page_url, referrer, client_id), and so
    keeps the first row of each group of equal rows. *)
Theorem deduplicator_key (pre : list raw_event) (r : raw_event) :
  drop_duplicates (pre ++ [r])
  = drop_duplicates pre
    ++ (if existsb (fun x => dup_key_eqb x r) pre then [] else [r])
  /\ (existsb (fun x => dup_key_eqb x r) pre = true
      <-> exists x, In x pre /\ dup_key x = dup_key r).
Proof.
  split.
  - apply (drop_duplicates_from_snoc pre [] r).
  - rewrite existsb_exists. split; intros [x [Hin H]]; exists x; split; trivial;
      apply dup_key_eqb_spec; exact H.
Qed.

Lemma deduplicator_key_witness :
  drop_duplicates ([page_view "U1"; page_view "U2"] ++ [page_view "U1"])
  = [page_view "U1"; page_view "U2"]
  /\ exists x, In x [page_view "U1"; page_view "U2"]
               /\ dup_key x = dup_key (page_view "U1").
Proof.
  split.
  - exact (proj1 (deduplicator_key [page_view "U1"; page_view "U2"]
                                   (page_view "U1"))).
  - apply (proj2 (deduplicator_key [page_view "U1"; page_view "U2"]
                                   (page_view "U1"))).
    reflexivity.
Defined.

(** ** Device rules *)

(** C10, counterexample.  A user agent with "android" and "iphone" and
    without "mobile" is classified "mobile" by the second rule; one with
    "ipad", "android" and "mobile" is classified "tablet" by the first. *)
Lemma earlier_rules_win :
  let ua1 := Some "Mozilla/5.0 (Linux; Android 13; iPhone-like)" in
  let ua2 := Some "Mozilla/5.0 (iPad; Android 13) Mobile" in
  ua_like ua1 "android" = true /\ ua_like ua1 "mobile" = false
  /\ device_type ua1 = "mobile" /\ device_type ua1 <> "tablet"
  /\ ua_like ua2 "android" = true /\ ua_like ua2 "mobile" = true
  /\ device_type ua2 = "tablet" /\ device_type ua2 <> "mobile".
Proof. cbv zeta. repeat split; try reflexivity; discriminate. Qed.

(** C10, amended.  "ipad" gives "tablet" whatever else the user agent holds;
    without "ipad", "android" together with "mobile" gives "mobile"; without
    "ipad" and "iphone", "android" without "mobile" gives "tablet"; a user
    agent matching no rule (or NULL) gives "unknown". *)
Theorem device_rules (ua : option string) :
  (ua_like ua "ipad" = true -> device_type ua = "tablet")
  /\ (ua_like ua "ipad" = false -> ua_like ua "android" = true ->
      ua_like ua "mobile" = true -> device_type ua = "mobile")
  /\ (ua_like ua "ipad" = false -> ua_like ua "iphone" = false ->
      ua_like ua "android" = true -> ua_like ua "mobile" = false ->
      device_type ua = "tablet")
  /\ (ua_like ua "ipad" = false -> ua_like ua "iphone" = false ->
      ua_like ua "android" = false -> ua_like ua "mobile" = false ->
      ua_like ua "windows" = false -> ua_like ua "macintosh" = false ->
      ua_like ua "x11" = false -> device_type ua = "unknown").
Proof.
  unfold device_type. repeat split; intros.
  - rewrite H. reflexivity.
  - rewrite H, H0, H1. destruct (ua_like ua "iphone"); reflexivity.
  - rewrite H, H0, H1, H2. reflexivity.
  - rewrite H, H0, H1, H2, H3, H4, H5. reflexivity.
Qed.

Lemma device_rules_witness :
  device_type (Some "Mozilla/5.0 (iPad; CPU OS 16_0 like Mac OS X) Mobile/15E148")
  = "tablet"
  /\ device_type (Some "Mozilla/5.0 (Linux; Android 13; Pixel 7) Mobile Safari")
     = "mobile"
  /\ device_type (Some "Mozilla/5.0 (Linux; Android 12; SM-X200) Safari/537.36")
     = "tablet"
  /\ device_type (Some "curl/8.4.0") = "unknown"
  /\ device_type None = "unknown".
Proof.
  split; [apply (proj1 (device_rules _)); reflexivity|].
  split; [apply (proj1 (proj2 (device_rules _))); reflexivity|].
  split; [apply (proj1 (proj2 (proj2 (device_rules _)))); reflexivity|].
  split; apply (proj2 (proj2 (proj2 (device_rules _)))); reflexivity.
Defined.

(** ** Sessions *)

Lemma running_sum_step (pre : list event) (prev : option Z) (acc : Z)
  (a b : event) (post : list event) :
  nth (S (List.length pre))
      (running_sum acc (flags_from prev (pre ++ a :: b :: post))) 0
  = nth (List.length pre)
        (running_sum acc (flags_from prev (pre ++ a :: b :: post))) 0
    + new_session_flag (timestamp_utc a) (timestamp_utc b).
Proof.
  revert prev acc. induction pre as [|x pre IH]; intros prev acc.
  - reflexivity.
  - simpl. apply IH.
Qed.

(** Consecutive rows of a partition: the later row's [session_seq] is the
    earlier row's plus the later row's flag. *)
Lemma session_seq_step (pre : list event) (a b : event) (post : list event) :
  nth (S (List.length pre)) (session_seqs (pre ++ a :: b :: post)) 0
  = nth (List.length pre) (session_seqs (pre ++ a :: b :: post)) 0
    + new_session_flag (timestamp_utc a) (timestamp_utc b).
Proof. apply running_sum_step. Qed.

Lemma flag_of_timestamps (ta tb : Z) :
  new_session_flag (Some ta) (Some tb)
  = if epoch_seconds tb - epoch_seconds ta >? SESSION_GAP_SECONDS then 1 else 0.
Proof. reflexivity. Qed.

(** C4, counterexample.  Two consecutive events of one client at
    2025-01-01 00:00:00.000 and 00:30:00.001, that is 1800.001 seconds
    apart, get the same [session_seq]. *)
Lemma gap_of_1800_001_seconds_same_session :
  let a := click T0 in
  let b := click (T0 + 1800001000) in
  client_partition "U1" [a; b] = [a; b]
  /\ (T0 + 1800001000) - T0 = 1800001 * 1000
  /\ sequenced "U1" [a; b] = [(a, 1); (b, 1)].
Proof. cbv zeta. repeat split. Qed.

(** C4, amended.  For consecutive rows [a], [b] of one client's partition:
    1800 seconds apart they are in the same session; [b] starts a new
    session exactly when the whole seconds of the two timestamps differ by
    more than 1800, which is so whenever the gap is 1801 seconds or more. *)
Theorem session_gap_boundary (evs : list event) (c : string)
  (pre : list event) (a b : event) (post : list event) (ta tb : Z) :
  client_partition c evs = pre ++ a :: b :: post ->
  timestamp_utc a = Some ta -> timestamp_utc b = Some tb ->
  let seq_a := nth (List.length pre) (session_seqs (client_partition c evs)) 0 in
  let seq_b := nth (S (List.length pre)) (session_seqs (client_partition c evs)) 0 in
  (tb - ta = 1800 * MICROS_PER_SEC -> seq_b = seq_a)
  /\ (seq_b <> seq_a <-> tb / MICROS_PER_SEC - ta / MICROS_PER_SEC > 1800)
  /\ (tb - ta >= 1801 * MICROS_PER_SEC -> seq_b = seq_a + 1).
Proof.
  intros Hp Ha Hb seq_a seq_b.
  assert (Hstep : seq_b = seq_a
            + (if tb / MICROS_PER_SEC - ta / MICROS_PER_SEC >? 1800 then 1 else 0)).
  { subst seq_a seq_b. rewrite Hp, session_seq_step, Ha, Hb, flag_of_timestamps.
    reflexivity. }
  clearbody seq_a seq_b. unfold MICROS_PER_SEC in *.
  destruct (Z.gtb_spec (tb / 1000000 - ta / 1000000) 1800) as [Hgt|Hle];
    repeat split; intros; try lia.
  - exfalso. revert Hgt. Z.div_mod_to_equations. lia.
  - exfalso. revert Hle. Z.div_mod_to_equations. lia.
Qed.

Lemma session_gap_boundary_witness :
  let a := click T0 in
  let b := click (T0 + 1800 * MICROS_PER_SEC) in
  let d := click (T0 + 3601 * MICROS_PER_SEC) in
  let old := click (-1800500000) in
  let new := click 500000 in
  nth 1 (session_seqs (client_partition "U1" [d; a; b])) 0
  = nth 0 (session_seqs (client_partition "U1" [d; a; b])) 0
  /\ nth 2 (session_seqs (client_partition "U1" [d; a; b])) 0
     = nth 1 (session_seqs (client_partition "U1" [d; a; b])) 0 + 1
  /\ nth 1 (session_seqs (client_partition "U1" [old; new])) 0
     = nth 0 (session_seqs (client_partition "U1" [old; new])) 0 + 1.
Proof.
  cbv zeta. split; [|split].
  - apply (session_gap_boundary [click (T0 + 3601 * MICROS_PER_SEC); click T0;
                                 click (T0 + 1800 * MICROS_PER_SEC)] "U1"
             [] (click T0) (click (T0 + 1800 * MICROS_PER_SEC))
             [click (T0 + 3601 * MICROS_PER_SEC)]
             (ta := T0) (tb := T0 + 1800 * MICROS_PER_SEC));
      reflexivity.
  - apply (session_gap_boundary [click (T0 + 3601 * MICROS_PER_SEC); click T0;
                                 click (T0 + 1800 * MICROS_PER_SEC)] "U1"
             [click T0] (click (T0 + 1800 * MICROS_PER_SEC))
             (click (T0 + 3601 * MICROS_PER_SEC)) []
             (ta := T0 + 1800 * MICROS_PER_SEC)
             (tb := T0 + 3601 * MICROS_PER_SEC));
      try reflexivity; vm_compute; congruence.
  - apply (session_gap_boundary [click (-1800500000); click 500000] "U1"
             [] (click (-1800500000)) (click 500000) []
             (ta := -1800500000) (tb := 500000));
      try reflexivity; vm_compute; congruence.
Defined.

(** ** Attribution window *)

Lemma candidate_window (p t : event) (c u : string) (tp tt : Z) :
  client_id p = Some c -> client_id t = Some c ->
  timestamp_utc p = Some tp -> timestamp_utc t = Some tt ->
  utm_source t = Some u ->
  is_touch_candidate p t = (tp - LOOKBACK <=? tt) && (tt <=? tp).
Proof.
  intros Hp Ht Htp Htt Hu. unfold is_touch_candidate, between.
  rewrite Hp, Ht, Htp, Htt, Hu. simpl.
  rewrite String.eqb_refl, andb_true_r. reflexivity.
Qed.

Lemma first_touch_is_candidate (evs : list event) (p t : event) :
  first_touch evs p = Some t -> In t (touch_candidates evs p).
Proof.
  unfold first_touch. intros H.
  apply (In_sort_by (fun x y => ts_asc (timestamp_utc x) (timestamp_utc y))).
  destruct (sort_by _ (touch_candidates evs p)) as [|x s]; [discriminate|].
  injection H as ->. left. reflexivity.
Qed.

Lemma last_touch_is_candidate (evs : list event) (p t : event) :
  last_touch evs p = Some t -> In t (touch_candidates evs p).
Proof.
  unfold last_touch. intros H.
  apply (In_sort_by (fun x y => ts_desc (timestamp_utc x) (timestamp_utc y))).
  destruct (sort_by _ (touch_candidates evs p)) as [|x s]; [discriminate|].
  injection H as ->. left. reflexivity.
Qed.

Lemma touch_found (evs : list event) (p t : event) :
  In t (touch_candidates evs p) ->
  first_touch evs p <> None /\ last_touch evs p <> None.
Proof.
  intros Hin. unfold first_touch, last_touch. split; intros H.
  - destruct (sort_by _ (touch_candidates evs p)) eqn:E; [|discriminate].
    apply sort_by_nil_inv in E. rewrite E in Hin. exact Hin.
  - destruct (sort_by _ (touch_candidates evs p)) eqn:E; [|discriminate].
    apply sort_by_nil_inv in E. rewrite E in Hin. exact Hin.
Qed.

(** C7.  For a purchase and a touch (an event with a non-null [utm_source])
    of the same client, the touch is a candidate exactly when its timestamp
    lies in [purchase_ts - 7 days, purchase_ts], both ends included: a touch
    exactly 7 days before the purchase, or at the purchase timestamp itself,
    is a candidate (and then a first and a last touch are found), and a
    touch any earlier than the lower end is no candidate and is never
    reported as first or last touch. *)
Theorem attribution_window_boundary (evs : list event) (p t : event)
  (c u : string) (tp tt : Z) :
  client_id p = Some c -> client_id t = Some c ->
  timestamp_utc p = Some tp -> timestamp_utc t = Some tt ->
  utm_source t = Some u -> In t evs ->
  (In t (touch_candidates evs p) <-> tp - 7 * MICROS_PER_DAY <= tt <= tp)
  /\ (tt = tp - 7 * MICROS_PER_DAY \/ tt = tp ->
      In t (touch_candidates evs p)
      /\ first_touch evs p <> None /\ last_touch evs p <> None)
  /\ (tt < tp - 7 * MICROS_PER_DAY ->
      ~ In t (touch_candidates evs p)
      /\ first_touch evs p <> Some t /\ last_touch evs p <> Some t).
Proof.
  intros Hp Ht Htp Htt Hu Hin.
  assert (Hc : In t (touch_candidates evs p)
               <-> tp - 7 * MICROS_PER_DAY <= tt <= tp).
  { unfold touch_candidates. rewrite filter_In.
    rewrite (candidate_window p t Hp Ht Htp Htt Hu).
    rewrite andb_true_iff, !Z.leb_le. unfold LOOKBACK. tauto. }
  split; [exact Hc|]. split.
  - intros Hb.
    assert (Hin' : In t (touch_candidates evs p)).
    { apply Hc. unfold MICROS_PER_DAY, MICROS_PER_SEC in *. lia. }
    split; [exact Hin'|]. apply (touch_found _ _ _ Hin').
  - intros Hlt.
    assert (Hnot : ~ In t (touch_candidates evs p)).
    { intros H. apply Hc in H. lia. }
    split; [exact Hnot|]. split; intros H; apply Hnot.
    + apply first_touch_is_candidate. exact H.
    + apply last_touch_is_candidate. exact H.
Qed.

Lemma attribution_window_boundary_witness :
  In ad_click (touch_candidates [ad_click; late_purchase] late_purchase)
  /\ first_touch [ad_click; late_purchase] late_purchase <> None
  /\ last_touch [ad_click; late_purchase] late_purchase <> None.
Proof.
  apply (proj1 (proj2 (attribution_window_boundary
                         [ad_click; late_purchase] late_purchase ad_click
                         (c := "U1") (u := "ads") (tp := T0)
                         (tt := T0 - 7 * MICROS_PER_DAY)
                         eq_refl eq_refl eq_refl eq_refl eq_refl
                         (or_introl eq_refl)))).
  left. reflexivity.
Defined.

(** One second too early: the touch is dropped and the purchase is direct. *)
Example touch_one_second_too_early :
  let early := mk_event (Some "U1") (T0 - 7 * MICROS_PER_DAY - MICROS_PER_SEC)
                        "page_viewed" JNull (Some "ads") in
  map last_utm_source (analytics_purchase_attribution [early; late_purchase])
  = [None]
  /\ map last_utm_source (analytics_purchase_attribution [ad_click; late_purchase])
     = [Some "ads"].
Proof. split; reflexivity. Qed.

(** ** Monitor *)

Lemma sql_max_nil_inv (l : list (option Z)) :
  sql_max l = None -> forall x, In x l -> x = None.
Proof.
  induction l as [|y l IH]; simpl; [tauto|].
  destruct y as [a|].
  - destruct (sql_max l); discriminate.
  - intros H x [<-|Hin]; [reflexivity | apply IH; assumption].
Qed.

(** What a returned report holds: the alerts of the six checks in order, the
    status computed from them; the event table was not empty. *)
Lemma monitor_report (evs : list event) (ps : list attributed_purchase)
  (r : report) :
  monitor evs ps = Ok r ->
  evs <> []
  /\ status r = report_status (alerts r)
  /\ exists b2 q2 b3 q3 b4 q4,
       alerts r = pipeline_health evs
                  ++ when b2 (WARN, High_null_client_id_rate q2)
                  ++ when b3 (WARN, Duplicate_rate_high q3)
                  ++ when b4 (WARN, JSON_parse_error_rate_high q4)
                  ++ revenue_drop_check evs
                  ++ direct_share_check ps.
Proof.
  unfold monitor.
  destruct (sql_max _) as [d|] eqn:Hd; [|discriminate].
  destruct (gt_or_raise (null_client_rate evs) _) as [b2|] ; [|discriminate].
  destruct (gt_or_raise (dup_rate evs) _) as [b3|]; [|discriminate].
  destruct (gt_or_raise (json_error_rate evs) _) as [b4|]; [|discriminate].
  simpl. intros H. injection H as <-. simpl. split; [|split].
  - intros ->. discriminate Hd.
  - reflexivity.
  - do 6 eexists. reflexivity.
Qed.

Lemma add_to_groups_not_nil {A : Type} (same : A -> A -> bool) (e : A)
  (gs : list (A * list A)) : add_to_groups same e gs <> [].
Proof.
  destruct gs as [|[k m] gs]; simpl; [discriminate|].
  destruct (same k e); discriminate.
Qed.

Lemma group_by_not_nil {A : Type} (same : A -> A -> bool) (l : list A) :
  l <> [] -> group_by same l <> [].
Proof.
  unfold group_by. intros Hl.
  destruct l as [|x l]; [congruence|]. simpl.
  assert (H : forall (l' : list A) gs,
             gs <> [] -> fold_left (fun gs e => add_to_groups same e gs) l' gs <> []).
  { induction l' as [|y l' IH]; simpl; intros gs Hgs; [exact Hgs|].
    apply IH. apply add_to_groups_not_nil. }
  apply H. discriminate.
Qed.

(** X18.  The monitor writes a report as soon as one event has a timestamp. *)
Lemma monitor_returns (evs : list event) (ps : list attributed_purchase)
  (e : event) (t : Z) :
  In e evs -> timestamp_utc e = Some t -> exists r, monitor evs ps = Ok r.
Proof.
  intros Hin Ht. unfold monitor.
  destruct (sql_max _) as [d|] eqn:Hd.
  - assert (Hne : evs <> []) by (destruct evs; [contradiction | discriminate]).
    assert (H1 : exists q, null_client_rate evs = Some q).
    { unfold null_client_rate, sql_avg. destruct evs; [congruence|].
      simpl. eexists. reflexivity. }
    assert (H2 : exists q, dup_rate evs = Some q).
    { unfold dup_rate, sql_div.
      pose proof (group_by_not_nil same_dup_group Hne) as Hg.
      destruct (group_by same_dup_group evs) as [|g gs]; [congruence|].
      cbv zeta. destruct (Qeq_bool _ 0) eqn:E; [|eexists; reflexivity].
      apply Qeq_bool_eq in E. unfold Qeq in E. simpl in E. lia. }
    assert (H3 : exists q, json_error_rate evs = Some q).
    { unfold json_error_rate, sql_avg. destruct evs; [congruence|].
      simpl. eexists. reflexivity. }
    destruct H1 as [q1 ->], H2 as [q2 ->], H3 as [q3 ->]. simpl.
    eexists. reflexivity.
  - exfalso.
    pose proof (sql_max_nil_inv _ Hd (DATE (timestamp_utc e))) as H.
    rewrite Ht in H. simpl in H.
    assert (Some (t / MICROS_PER_DAY) = None); [|discriminate].
    apply H. apply in_map_iff. exists e. rewrite Ht. split; [reflexivity|exact Hin].
Qed.

Lemma report_status_FAIL (al : list (severity * message)) :
  report_status al = FAIL <-> exists m, In (CRITICAL, m) al.
Proof.
  unfold report_status. destruct (existsb is_critical al) eqn:E.
  - split; [intros _|reflexivity].
    apply existsb_exists in E. destruct E as [[s m] [Hin Hc]].
    destruct s; [discriminate|]. exists m. exact Hin.
  - split; [discriminate|]. intros [m Hin]. exfalso.
    assert (existsb is_critical al = true); [|congruence].
    apply existsb_exists. exists (CRITICAL, m). split; [exact Hin|reflexivity].
Qed.

Lemma report_status_cases (al : list (severity * message)) :
  report_status al = FAIL \/ report_status al = PASS.
Proof. unfold report_status. destruct (existsb is_critical al); auto. Qed.

(** C2, counterexample.  A day whose only event is an anonymous purchase
    raises two WARN alerts and no CRITICAL one; the status written is PASS. *)
Lemma warnings_still_pass :
  run_monitor [anonymous_purchase]
  = Ok {| date := 20089;
          alerts := [(WARN, High_null_client_id_rate 1);
                     (WARN, Direct_traffic_unusually_high (10 # 10))];
          status := PASS |}.
Proof. reflexivity. Qed.

(** C2, amended.  The status of a report is FAIL if and only if at least one
    alert is CRITICAL, and PASS otherwise: PASS if and only if no alert is
    CRITICAL, also when WARN alerts are present.  The status is never WARN. *)
Theorem monitor_overall_status (evs : list event)
  (ps : list attributed_purchase) (r : report) :
  monitor evs ps = Ok r ->
  (status r = FAIL <-> exists m, In (CRITICAL, m) (alerts r))
  /\ (status r = PASS <-> forall m, ~ In (CRITICAL, m) (alerts r))
  /\ status r <> STATUS_WARN.
Proof.
  intros H. destruct (monitor_report _ _ H) as (_ & Hs & _).
  rewrite Hs. pose proof (report_status_FAIL (alerts r)) as HF.
  destruct (report_status_cases (alerts r)) as [E|E]; rewrite E in *.
  - split; [exact HF|]. split; [|discriminate].
    split; [discriminate|]. intros Hn. exfalso.
    destruct (proj1 HF eq_refl) as [m Hm]. exact (Hn m Hm).
  - split; [exact HF|]. split; [|discriminate].
    split; [|reflexivity]. intros _ m Hm.
    assert (PASS = FAIL); [|discriminate]. apply HF. exists m. exact Hm.
Qed.

Lemma monitor_overall_status_witness :
  exists r, run_monitor [anonymous_purchase] = Ok r
            /\ status r = PASS
            /\ forall m, ~ In (CRITICAL, m) (alerts r).
Proof.
  eexists. split; [reflexivity|]. split; [reflexivity|].
  apply (proj1 (proj2 (monitor_overall_status
                         [anonymous_purchase]
                         (analytics_purchase_attribution [anonymous_purchase])
                         eq_refl))).
  reflexivity.
Defined.

(** C3.  With an empty event table the monitor stops with [ValueError]
    before any check runs: no report is written. *)
Theorem monitor_empty_input (ps : list attributed_purchase) :
  monitor [] ps = Raise ValueError.
Proof. reflexivity. Qed.

Lemma In_when (b : bool) (x y : severity * message) : In y (when b x) -> y = x.
Proof. destruct b; simpl; intuition congruence. Qed.

Lemma In_pipeline_health (evs : list event) (y : severity * message) :
  In y (pipeline_health evs) ->
  (y = (CRITICAL, No_events_ingested_today) /\ evs = [])
  \/ y = (CRITICAL, No_purchases_recorded_today).
Proof.
  unfold pipeline_health. rewrite in_app_iff. intros [H|H].
  - destruct evs; simpl in H; [|contradiction].
    destruct H as [<-|[]]. left. split; reflexivity.
  - destruct (_ =? _)%nat; simpl in H; [|contradiction].
    destruct H as [<-|[]]. right. reflexivity.
Qed.

Lemma In_revenue_drop_check (evs : list event) (y : severity * message) :
  In y (revenue_drop_check evs) ->
  (BASELINE_DAYS < List.length (daily_rev evs))%nat
  /\ exists latest baseline, y = (CRITICAL, Revenue_drop_detected latest baseline).
Proof.
  unfold revenue_drop_check.
  destruct (Nat.ltb_spec BASELINE_DAYS (List.length (daily_rev evs))) as [Hlt|Hge];
    [|contradiction].
  intros H. split; [exact Hlt|]. revert H. unfold revenue_drop_alert.
  destruct (nth_error (daily_rev evs) 0) as [[d [latest|]]|]; try contradiction.
  destruct (mean _) as [baseline|]; [|contradiction].
  destruct (_ && _); [|contradiction].
  intros [<-|[]]. exists latest, baseline. reflexivity.
Qed.

Lemma In_direct_share_check (ps : list attributed_purchase)
  (y : severity * message) :
  In y (direct_share_check ps) ->
  (exists s, y = (WARN, Direct_traffic_unusually_high s))
  \/ y = (WARN, Direct_traffic_unusually_high_inf).
Proof.
  unfold direct_share_check.
  destruct (direct_share ps) as [[s| | |]|]; try contradiction.
  - destruct (_ && _); [|contradiction].
    intros [<-|[]]. left. exists s. reflexivity.
  - intros [<-|[]]. right. reflexivity.
Qed.

(** Where each alert of a report comes from. *)
Lemma alert_origin (evs : list event) (ps : list attributed_purchase)
  (r : report) (y : severity * message) :
  monitor evs ps = Ok r -> In y (alerts r) ->
  y = (CRITICAL, No_purchases_recorded_today)
  \/ (exists q, y = (WARN, High_null_client_id_rate q))
  \/ (exists q, y = (WARN, Duplicate_rate_high q))
  \/ (exists q, y = (WARN, JSON_parse_error_rate_high q))
  \/ ((BASELINE_DAYS < List.length (daily_rev evs))%nat
      /\ exists l b, y = (CRITICAL, Revenue_drop_detected l b))
  \/ (exists s, y = (WARN, Direct_traffic_unusually_high s))
  \/ y = (WARN, Direct_traffic_unusually_high_inf).
Proof.
  intros H Hin.
  destruct (monitor_report _ _ H)
    as (Hne & _ & b2 & q2 & b3 & q3 & b4 & q4 & Ha).
  rewrite Ha in Hin. rewrite !in_app_iff in Hin.
  destruct Hin as [Hin|[Hin|[Hin|[Hin|[Hin|Hin]]]]].
  - apply In_pipeline_health in Hin. destruct Hin as [[_ He]|Hin]; [congruence|].
    left. exact Hin.
  - apply In_when in Hin. right; left. exists q2. exact Hin.
  - apply In_when in Hin. right; right; left. exists q3. exact Hin.
  - apply In_when in Hin. right; right; right; left. exists q4. exact Hin.
  - apply In_revenue_drop_check in Hin. right; right; right; right; left. exact Hin.
  - apply In_direct_share_check in Hin. right; right; right; right; right. exact Hin.
Qed.

(** X19.  The alert of the zero-row check (lines 57-58) is in no report. *)
Lemma zero_row_alert_unreachable (evs : list event)
  (ps : list attributed_purchase) (r : report) :
  monitor evs ps = Ok r -> ~ In (CRITICAL, No_events_ingested_today) (alerts r).
Proof.
  intros H Hin.
  destruct (@alert_origin _ _ _ _ H Hin)
    as [E|[[q E]|[[q E]|[[q E]|[[_ [l [b E]]]|[[s E]|E]]]]]]; discriminate E.
Qed.

(** C8, counterexample.  A run with one day of revenue history (check
    skipped) and a run with eight flat days (check evaluated and passed)
    write the same report: nothing in it says "skipped". *)
Lemma skipped_check_not_reported :
  (List.length (daily_rev one_day) < BASELINE_DAYS + 1)%nat
  /\ (BASELINE_DAYS < List.length (daily_rev eight_days))%nat
  /\ run_monitor one_day = Ok {| date := 20089; alerts := []; status := PASS |}
  /\ run_monitor eight_days = run_monitor one_day.
Proof. repeat split; vm_compute; lia. Qed.

(** C8, amended.  With fewer than [BASELINE_DAYS + 1] rows of daily revenue
    the revenue-drop check adds nothing to the report: no revenue-drop alert
    is raised, and the alerts are exactly those of the other five checks.
    The report has no entry that tells a skipped check from a passed one. *)
Theorem insufficient_baseline (evs : list event)
  (ps : list attributed_purchase) (r : report) :
  monitor evs ps = Ok r ->
  (List.length (daily_rev evs) < BASELINE_DAYS + 1)%nat ->
  revenue_drop_check evs = []
  /\ (forall latest baseline,
        ~ In (CRITICAL, Revenue_drop_detected latest baseline) (alerts r))
  /\ exists b2 q2 b3 q3 b4 q4,
       alerts r = pipeline_health evs
                  ++ when b2 (WARN, High_null_client_id_rate q2)
                  ++ when b3 (WARN, Duplicate_rate_high q3)
                  ++ when b4 (WARN, JSON_parse_error_rate_high q4)
                  ++ direct_share_check ps.
Proof.
  intros H Hlen.
  assert (Hskip : revenue_drop_check evs = []).
  { unfold revenue_drop_check.
    destruct (Nat.ltb_spec BASELINE_DAYS (List.length (daily_rev evs)));
      [lia | reflexivity]. }
  split; [exact Hskip|]. split.
  - intros latest baseline Hin.
    destruct (@alert_origin _ _ _ _ H Hin)
      as [E|[[q E]|[[q E]|[[q E]|[[Hlt _]|[[s E]|E]]]]]]; try discriminate E.
    lia.
  - destruct (monitor_report _ _ H)
      as (_ & _ & b2 & q2 & b3 & q3 & b4 & q4 & Ha).
    exists b2, q2, b3, q3, b4, q4. rewrite Ha, Hskip. reflexivity.
Qed.

Lemma insufficient_baseline_witness :
  exists r, run_monitor one_day = Ok r
            /\ revenue_drop_check one_day = []
            /\ forall latest baseline,
                 ~ In (CRITICAL, Revenue_drop_detected latest baseline) (alerts r).
Proof.
  eexists. split; [reflexivity|].
  assert (Hlen : (List.length (daily_rev one_day) < BASELINE_DAYS + 1)%nat)
    by (vm_compute; lia).
  destruct (insufficient_baseline
              one_day (analytics_purchase_attribution one_day) eq_refl Hlen)
    as (H1 & H2 & _).
  split; [exact H1 | exact H2].
Defined.

(** X20.  An event table in which no row has a timestamp (the empty table is one)
    stops the monitor the same way. *)
Lemma monitor_without_dates (evs : list event) (ps : list attributed_purchase) :
  (forall e, In e evs -> timestamp_utc e = None) ->
  monitor evs ps = Raise ValueError.
Proof.
  intros H. unfold monitor.
  assert (E : sql_max (map (fun e => DATE (timestamp_utc e)) evs) = None).
  { induction evs as [|x evs IH]; [reflexivity|]. simpl.
    rewrite (H x (or_introl eq_refl)). simpl.
    apply IH. intros e He. apply H. right. exact He. }
  rewrite E. reflexivity.
Qed.

(** ** Scenarios *)

(** Two sessions; both purchases have the ad click as first and last touch. *)
Example scenario_U1_sessions_and_touches :
  map snd (sequenced "U1" scenario_U1) = [1; 1; 2]
  /\ map (fun a => (revenue a, first_utm_source a, last_utm_source a))
         (analytics_purchase_attribution scenario_U1)
     = [(50 * 1, Some "ads", Some "ads"); (20 * 1, Some "ads", Some "ads")]%Q.
Proof. split; reflexivity. Qed.

(** Seven days at 100 and a latest day at 20: a CRITICAL revenue drop. *)
Example scenario_revenue_drop :
  run_monitor (day_purchase 0 20
                 :: map (fun d => day_purchase d 100) [1; 2; 3; 4; 5; 6; 7])
  = Ok {| date := 20089;
          alerts := [(CRITICAL, Revenue_drop_detected (20 * 1) (700 # 7))];
          status := FAIL |}.
Proof. vm_compute. reflexivity. Qed.

(** * Further properties *)

(** ** Deduplicator *)

Lemma seen_key_spec (seen : list raw_event) (r : raw_event) :
  existsb (fun x => dup_key_eqb x r) seen = true
  <-> exists x, In x seen /\ dup_key x = dup_key r.
Proof.
  rewrite existsb_exists. split; intros [x [Hin H]]; exists x; split; trivial;
    apply dup_key_eqb_spec; exact H.
Qed.

Lemma seen_key_none (seen : list raw_event) (r : raw_event) :
  existsb (fun x => dup_key_eqb x r) seen = false
  <-> ~ In (dup_key r) (map dup_key seen).
Proof.
  rewrite <- not_true_iff_false, seen_key_spec, in_map_iff.
  split; intros H [x Hx]; apply H; exists x; tauto.
Qed.

Lemma drop_duplicates_from_keys (l seen : list raw_event) :
  NoDup (map dup_key (drop_duplicates_from seen l))
  /\ (forall r, In r (drop_duplicates_from seen l) ->
                In r l /\ ~ In (dup_key r) (map dup_key seen)).
Proof.
  revert seen. induction l as [|a l IH]; intros seen; simpl.
  - split; [constructor | contradiction].
  - destruct (IH (a :: seen)) as [Hnd Hin].
    destruct (existsb (fun x => dup_key_eqb x a) seen) eqn:E.
    + split; [exact Hnd|]. intros r Hr. destruct (Hin r Hr) as [H1 H2].
      split; [right; exact H1|]. intros H. apply H2. right. exact H.
    + split.
      * simpl. constructor; [|exact Hnd].
        rewrite in_map_iff. intros [x [Hk Hx]].
        destruct (Hin x Hx) as [_ H2]. apply H2. left. symmetry. exact Hk.
      * intros r [<-|Hr].
        -- split; [left; reflexivity|]. apply seen_key_none. exact E.
        -- destruct (Hin r Hr) as [H1 H2].
           split; [right; exact H1|]. intros H. apply H2. right. exact H.
Qed.

Lemma drop_duplicates_from_covers (l seen : list raw_event) (r : raw_event) :
  In r l ->
  In (dup_key r) (map dup_key seen)
  \/ In (dup_key r) (map dup_key (drop_duplicates_from seen l)).
Proof.
  revert seen. induction l as [|a l IH]; intros seen; simpl; [contradiction|].
  intros [->|Hin].
  - destruct (existsb (fun x => dup_key_eqb x r) seen) eqn:E.
    + left. apply seen_key_spec in E. destruct E as [x [Hx Hk]].
      rewrite <- Hk. apply in_map. exact Hx.
    + right. left. reflexivity.
  - destruct (IH (a :: seen) Hin) as [[H|H]|H].
    + destruct (existsb (fun x => dup_key_eqb x a) seen) eqn:E.
      * left. apply seen_key_spec in E. destruct E as [x [Hx Hk]].
        rewrite <- H, <- Hk. apply in_map. exact Hx.
      * right. left. exact H.
    + left. exact H.
    + right. destruct (existsb (fun x => dup_key_eqb x a) seen);
        [exact H | right; exact H].
Qed.

Lemma drop_duplicates_from_stable (l s1 s2 : list raw_event) :
  (forall k, In k (map dup_key s2) -> In k (map dup_key s1)) ->
  drop_duplicates_from s2 (drop_duplicates_from s1 l) = drop_duplicates_from s1 l.
Proof.
  revert s1 s2. induction l as [|a l IH]; intros s1 s2 Hcov; simpl; [reflexivity|].
  destruct (existsb (fun x => dup_key_eqb x a) s1) eqn:E.
  - apply IH. intros k Hk. right. apply Hcov. exact Hk.
  - simpl.
    assert (E2 : existsb (fun x => dup_key_eqb x a) s2 = false).
    { apply seen_key_none. intros H. apply seen_key_none in E. apply E.
      apply Hcov. exact H. }
    rewrite E2. f_equal. apply IH.
    intros k [<-|Hk]; [left; reflexivity | right; apply Hcov; exact Hk].
Qed.

Lemma drop_duplicates_from_length (l seen : list raw_event) :
  (List.length (drop_duplicates_from seen l) <= List.length l)%nat.
Proof.
  revert seen. induction l as [|a l IH]; intros seen; simpl; [lia|].
  specialize (IH (a :: seen)).
  destruct (existsb _ seen); simpl; lia.
Qed.

(** X1.  Running the Deduplicator on its own output changes nothing. *)
Theorem drop_duplicates_idempotent (l : list raw_event) :
  drop_duplicates (drop_duplicates l) = drop_duplicates l.
Proof.
  unfold drop_duplicates. apply drop_duplicates_from_stable.
  intros k Hk. exact Hk.
Qed.

(** X2.  After deduplication no two rows agree on the seven key columns, and
    every kept row is a row of the input. *)
Theorem drop_duplicates_distinct_keys (l : list raw_event) :
  NoDup (map dup_key (drop_duplicates l))
  /\ forall r, In r (drop_duplicates l) -> In r l.
Proof.
  unfold drop_duplicates.
  destruct (drop_duplicates_from_keys l []) as [H1 H2].
  split; [exact H1|]. intros r Hr. apply (H2 r Hr).
Qed.

(** X3.  No key is lost: every input row has a kept row with the same key. *)
Theorem drop_duplicates_keeps_every_key (l : list raw_event) (r : raw_event) :
  In r l -> exists r', In r' (drop_duplicates l) /\ dup_key r' = dup_key r.
Proof.
  intros Hin. destruct (@drop_duplicates_from_covers l [] r Hin) as [[]|H].
  apply in_map_iff in H. destruct H as [r' [Hk Hr']].
  exists r'. split; [exact Hr' | exact Hk].
Qed.

Lemma drop_duplicates_keeps_every_key_witness :
  exists r', In r' (drop_duplicates [page_view "U1"; page_view "U2"; page_view "U1"])
             /\ dup_key r' = dup_key (page_view "U2").
Proof.
  apply (@drop_duplicates_keeps_every_key
           [page_view "U1"; page_view "U2"; page_view "U1"] (page_view "U2")).
  right. left. reflexivity.
Defined.

(** The reported count of dropped rows and the rows kept add up to the
    input size. *)
Lemma dropped_dupes_accounts (l : list raw_event) :
  (dropped_dupes l + List.length (drop_duplicates l) = List.length l)%nat.
Proof.
  unfold dropped_dupes, drop_duplicates.
  pose proof (drop_duplicates_from_length l []). lia.
Qed.

(** ** Ordering *)

Section SortBy.
Variable A : Type.
Variable before : A -> A -> bool.

Lemma insert_by_perm (e : A) (l : list A) :
  Permutation (insert_by before e l) (e :: l).
Proof.
  induction l as [|x l IH]; simpl; [reflexivity|].
  destruct (before x e); [|reflexivity].
  rewrite IH. apply perm_swap.
Qed.

Lemma sort_by_perm (l : list A) : Permutation (sort_by before l) l.
Proof.
  induction l as [|x l IH]; simpl; [reflexivity|].
  rewrite insert_by_perm. constructor. exact IH.
Qed.

(** [R a b]: [b] does not come strictly before [a]. *)
Let R (a b : A) : Prop := before b a = false.

Hypothesis asym : forall a b, before a b = true -> before b a = false.
Hypothesis trans : forall a b c, R a b -> R b c -> R a c.

Lemma insert_by_sorted (e : A) (l : list A) :
  StronglySorted R l -> StronglySorted R (insert_by before e l).
Proof.
  induction 1 as [|x l Hs IH Hx]; simpl.
  - constructor; constructor.
  - destruct (before x e) eqn:E.
    + constructor; [exact IH|].
      apply Forall_forall. intros y Hy.
      apply In_insert_by in Hy. destruct Hy as [->|Hy].
      * apply asym. exact E.
      * rewrite Forall_forall in Hx. apply Hx. exact Hy.
    + constructor; [constructor; assumption|].
      constructor; [exact E|].
      apply Forall_forall. intros y Hy. rewrite Forall_forall in Hx.
      apply (trans (b := x)); [exact E | apply Hx; exact Hy].
Qed.

Lemma sort_by_sorted (l : list A) : StronglySorted R (sort_by before l).
Proof.
  induction l as [|x l IH]; simpl; [constructor|].
  apply insert_by_sorted. exact IH.
Qed.

(** The head of the sorted list: nothing comes strictly before it. *)
Lemma sort_by_head (l : list A) (h x : A) :
  hd_error (sort_by before l) = Some h -> In x l -> before x h = false \/ x = h.
Proof.
  intros Hh Hx. pose proof (sort_by_sorted l) as Hs.
  apply (In_sort_by before) in Hx.
  destruct (sort_by before l) as [|y s]; [discriminate|].
  injection Hh as ->. inversion Hs as [|? ? _ Hall]; subst.
  destruct Hx as [->|Hx]; [right; reflexivity|].
  left. rewrite Forall_forall in Hall. apply Hall. exact Hx.
Qed.
End SortBy.

Lemma ts_asc_false (a b : option Z) : ts_asc b a = false <-> ts_le a b.
Proof.
  destruct a as [x|], b as [y|]; simpl.
  - apply Z.ltb_ge.
  - split; [intros _; exact I | reflexivity].
  - split; [discriminate | contradiction].
  - split; [intros _; exact I | reflexivity].
Qed.

Lemma ts_asc_asym (a b : option Z) : ts_asc a b = true -> ts_asc b a = false.
Proof.
  destruct a as [x|], b as [y|]; simpl; try congruence.
  rewrite Z.ltb_lt, Z.ltb_ge. lia.
Qed.

Lemma ts_le_trans (a b c : option Z) : ts_le a b -> ts_le b c -> ts_le a c.
Proof.
  destruct a as [x|], b as [y|], c as [z|]; simpl; try tauto. lia.
Qed.

Lemma ts_desc_asym (a b : option Z) : ts_desc a b = true -> ts_desc b a = false.
Proof.
  destruct a as [x|], b as [y|]; simpl; try congruence.
  rewrite Z.ltb_lt, Z.ltb_ge. lia.
Qed.

Lemma ts_desc_trans (a b c : option Z) :
  ts_desc b a = false -> ts_desc c b = false -> ts_desc c a = false.
Proof.
  destruct a as [x|], b as [y|], c as [z|]; simpl; try congruence.
  rewrite !Z.ltb_ge. lia.
Qed.

(** ** Sessions *)

(** X4.  Within a client's partition the rows are in ascending timestamp
    order, rows without a timestamp last. *)
Theorem client_partition_sorted (c : string) (evs : list event) :
  StronglySorted (fun x y => ts_le (timestamp_utc x) (timestamp_utc y))
                 (client_partition c evs).
Proof.
  unfold client_partition.
  eapply StronglySorted_ind with
    (P := StronglySorted (fun x y => ts_le (timestamp_utc x) (timestamp_utc y)));
    [constructor | | apply sort_by_sorted].
  - intros a l _ IH Ha. constructor; [exact IH|].
    eapply Forall_impl; [|exact Ha]. intros y Hy. apply ts_asc_false. exact Hy.
  - intros a b. apply ts_asc_asym.
  - intros a b d H1 H2. apply ts_asc_false.
    apply ts_asc_false in H1. apply ts_asc_false in H2.
    eapply ts_le_trans; eassumption.
Qed.

Lemma running_sum_length (l : list Z) (acc : Z) :
  List.length (running_sum acc l) = List.length l.
Proof. revert acc. induction l; intros; simpl; [|rewrite IHl]; reflexivity. Qed.

Lemma flags_from_length (rows : list event) (prev : option Z) :
  List.length (flags_from prev rows) = List.length rows.
Proof. revert prev. induction rows; intros; simpl; [|rewrite IHrows]; reflexivity. Qed.

Lemma map_fst_combine {A B : Type} (l : list A) (l' : list B) :
  List.length l = List.length l' -> map fst (combine l l') = l.
Proof.
  revert l'. induction l as [|x l IH]; intros [|y l'] H; simpl in *;
    try reflexivity; try discriminate.
  f_equal. apply IH. lia.
Qed.

(** X5.  Sessionization loses and repeats nothing: the sequenced rows of a
    client are exactly the events carrying that client id, each once,
    including events whose timestamp is NULL. *)
Theorem sequenced_covers_client (c : string) (evs : list event) :
  Permutation (map fst (sequenced c evs))
              (filter (fun e => sql_string_eq (client_id e) (Some c)) evs).
Proof.
  unfold sequenced. rewrite map_fst_combine.
  - unfold client_partition. apply sort_by_perm.
  - unfold session_seqs. rewrite running_sum_length, flags_from_length.
    reflexivity.
Qed.

Lemma new_session_flag_range (prev ts : option Z) :
  new_session_flag prev ts = 0 \/ new_session_flag prev ts = 1.
Proof.
  unfold new_session_flag. destruct prev; [|right; reflexivity].
  destruct (datediff_second _ ts); [|left; reflexivity].
  destruct (_ >? _); auto.
Qed.

(** X6.  Session numbers of a partition start at 1 and go up in steps of 0
    or 1 from one row to the next. *)
Theorem session_seq_numbering (pre : list event) (a b : event)
  (post rows : list event) :
  nth 0 (session_seqs (a :: rows)) 0 = 1
  /\ (nth (S (List.length pre)) (session_seqs (pre ++ a :: b :: post)) 0
      = nth (List.length pre) (session_seqs (pre ++ a :: b :: post)) 0
      \/ nth (S (List.length pre)) (session_seqs (pre ++ a :: b :: post)) 0
         = nth (List.length pre) (session_seqs (pre ++ a :: b :: post)) 0 + 1).
Proof.
  split; [reflexivity|]. rewrite session_seq_step.
  destruct (new_session_flag_range (timestamp_utc a) (timestamp_utc b)) as [->| ->];
    [left; lia | right; reflexivity].
Qed.

(** X7.  Rows without a timestamp are sessionized too: the row after a row
    with a NULL timestamp always opens a new session, and a row with a NULL
    timestamp that follows a timestamped row stays in that row's session. *)
Theorem null_timestamp_sessions (pre : list event) (a b : event)
  (post : list event) :
  (timestamp_utc a = None ->
   nth (S (List.length pre)) (session_seqs (pre ++ a :: b :: post)) 0
   = nth (List.length pre) (session_seqs (pre ++ a :: b :: post)) 0 + 1)
  /\ (timestamp_utc a <> None -> timestamp_utc b = None ->
      nth (S (List.length pre)) (session_seqs (pre ++ a :: b :: post)) 0
      = nth (List.length pre) (session_seqs (pre ++ a :: b :: post)) 0).
Proof.
  rewrite session_seq_step. split.
  - intros ->. reflexivity.
  - intros Ha ->. destruct (timestamp_utc a); [simpl; lia | congruence].
Qed.

Lemma null_timestamp_sessions_witness :
  nth 1 (session_seqs ([] ++ [undated_click; click T0])) 0
  = nth 0 (session_seqs ([] ++ [undated_click; click T0])) 0 + 1
  /\ nth 1 (session_seqs ([] ++ [click T0; undated_click])) 0
     = nth 0 (session_seqs ([] ++ [click T0; undated_click])) 0.
Proof.
  split.
  - apply (proj1 (null_timestamp_sessions [] undated_click (click T0) [])).
    reflexivity.
  - apply (proj2 (null_timestamp_sessions [] (click T0) undated_click []));
      [discriminate | reflexivity].
Defined.

Lemma sql_min_le_max (l : list (option Z)) (a b : Z) :
  sql_min l = Some a -> sql_max l = Some b -> a <= b.
Proof.
  revert a b. induction l as [|x l IH]; simpl; intros a b; [discriminate|].
  destruct x as [v|]; [|apply IH].
  destruct (sql_min l) as [m|], (sql_max l) as [M|]; intros Ha Hb;
    injection Ha as <-; injection Hb as <-; lia.
Qed.

(** X8.  A session's duration is never negative, and a session's start is
    not after its end. *)
Theorem session_duration_nonneg (c : string) (evs : list event) (s d : Z) :
  session_duration_seconds c evs s = Some d ->
  0 <= d
  /\ exists t0 t1, session_start c evs s = Some t0
                   /\ session_end c evs s = Some t1 /\ t0 <= t1.
Proof.
  unfold session_duration_seconds, datediff_second.
  destruct (session_start c evs s) as [t0|] eqn:E0; [|discriminate].
  destruct (session_end c evs s) as [t1|] eqn:E1; [|discriminate].
  intros H. injection H as <-.
  assert (Hle : t0 <= t1) by (eapply sql_min_le_max; eassumption).
  split; [|exists t0, t1; auto].
  unfold epoch_seconds, MICROS_PER_SEC.
  pose proof (Z.div_le_mono t0 t1 1000000 ltac:(lia) Hle). lia.
Qed.

Lemma session_duration_nonneg_witness :
  0 <= 100
  /\ exists t0 t1, session_start "U1" scenario_U1 1 = Some t0
                   /\ session_end "U1" scenario_U1 1 = Some t1 /\ t0 <= t1.
Proof.
  apply (@session_duration_nonneg "U1" scenario_U1 1 100). reflexivity.
Defined.

(** ** Attribution *)

Lemma candidate_inv (p t : event) :
  is_touch_candidate p t = true ->
  exists c tp tt u,
    client_id p = Some c /\ client_id t = Some c
    /\ timestamp_utc p = Some tp /\ timestamp_utc t = Some tt
    /\ utm_source t = Some u /\ tp - LOOKBACK <= tt <= tp.
Proof.
  unfold is_touch_candidate, sql_string_eq, between, is_some.
  destruct (client_id t) as [ct|]; [|discriminate].
  destruct (client_id p) as [cp|]; [|discriminate].
  destruct (timestamp_utc t) as [tt|]; [|rewrite andb_false_r; discriminate].
  destruct (timestamp_utc p) as [tp|]; [|rewrite andb_false_r; discriminate].
  destruct (utm_source t) as [u|]; [|rewrite andb_false_r; discriminate].
  simpl. rewrite andb_true_r, !andb_true_iff, String.eqb_eq, !Z.leb_le.
  intros [-> [H1 H2]]. exists cp, tp, tt, u. repeat split; trivial.
Qed.

(** X9.  A reported touch is an event of the purchase's client that carries
    a [utm_source] and lies in the 7-day window ending at the purchase. *)
Theorem reported_touch_in_window (evs : list event) (p t : event) :
  first_touch evs p = Some t \/ last_touch evs p = Some t ->
  In t evs
  /\ exists c tp tt u,
       client_id p = Some c /\ client_id t = Some c
       /\ timestamp_utc p = Some tp /\ timestamp_utc t = Some tt
       /\ utm_source t = Some u /\ tp - LOOKBACK <= tt <= tp.
Proof.
  intros H.
  assert (Hc : In t (touch_candidates evs p)).
  { destruct H as [H|H];
      [apply first_touch_is_candidate | apply last_touch_is_candidate]; exact H. }
  unfold touch_candidates in Hc. apply filter_In in Hc. destruct Hc as [Hin Hc].
  split; [exact Hin | apply candidate_inv; exact Hc].
Qed.

Lemma reported_touch_in_window_witness :
  In ad_click [ad_click; late_purchase]
  /\ exists c tp tt u,
       client_id late_purchase = Some c /\ client_id ad_click = Some c
       /\ timestamp_utc late_purchase = Some tp /\ timestamp_utc ad_click = Some tt
       /\ utm_source ad_click = Some u /\ tp - LOOKBACK <= tt <= tp.
Proof.
  apply (@reported_touch_in_window [ad_click; late_purchase] late_purchase ad_click).
  left. reflexivity.
Defined.

(** X10.  The first touch is the earliest candidate and the last touch the
    latest: every candidate's timestamp lies between theirs. *)
Theorem first_and_last_touch_extremal (evs : list event) (p f l x : event)
  (tf tl tx : Z) :
  first_touch evs p = Some f -> last_touch evs p = Some l ->
  In x (touch_candidates evs p) ->
  timestamp_utc f = Some tf -> timestamp_utc l = Some tl ->
  timestamp_utc x = Some tx ->
  tf <= tx <= tl.
Proof.
  intros Hf Hl Hx Etf Etl Etx. split.
  - destruct (@sort_by_head event
                (fun a b => ts_asc (timestamp_utc a) (timestamp_utc b))
                (fun a b => ts_asc_asym (timestamp_utc a) (timestamp_utc b))
                (fun a b d H1 H2 =>
                   proj2 (ts_asc_false _ _)
                     (ts_le_trans _ _ _ (proj1 (ts_asc_false _ _) H1)
                                        (proj1 (ts_asc_false _ _) H2)))
                (touch_candidates evs p) f x Hf Hx) as [H| ->].
    + rewrite Etf, Etx in H. simpl in H. apply Z.ltb_ge in H. exact H.
    + rewrite Etf in Etx. injection Etx as ->. lia.
  - destruct (@sort_by_head event
                (fun a b => ts_desc (timestamp_utc a) (timestamp_utc b))
                (fun a b => ts_desc_asym (timestamp_utc a) (timestamp_utc b))
                (fun a b d H1 H2 =>
                   ts_desc_trans (timestamp_utc a) (timestamp_utc b)
                                 (timestamp_utc d) H1 H2)
                (touch_candidates evs p) l x Hl Hx) as [H| ->].
    + rewrite Etl, Etx in H. simpl in H. apply Z.ltb_ge in H. exact H.
    + rewrite Etl in Etx. injection Etx as ->. lia.
Qed.

Lemma first_and_last_touch_extremal_witness :
  first_touch [email_click; day_purchase 0 100; ad_click] (day_purchase 0 100)
  = Some ad_click
  /\ last_touch [email_click; day_purchase 0 100; ad_click] (day_purchase 0 100)
     = Some (day_purchase 0 100)
  /\ T0 - 7 * MICROS_PER_DAY <= T0 - 3 * MICROS_PER_DAY <= T0 - 0 * MICROS_PER_DAY.
Proof.
  split; [reflexivity|]. split; [reflexivity|].
  apply (@first_and_last_touch_extremal
           [email_click; day_purchase 0 100; ad_click] (day_purchase 0 100)
           ad_click (day_purchase 0 100) email_click
           (T0 - 7 * MICROS_PER_DAY) (T0 - 0 * MICROS_PER_DAY)
           (T0 - 3 * MICROS_PER_DAY));
    try reflexivity.
  left. reflexivity.
Defined.

Lemma first_touch_none (evs : list event) (p : event) :
  first_touch evs p = None <-> touch_candidates evs p = [].
Proof.
  unfold first_touch. split.
  - destruct (sort_by _ (touch_candidates evs p)) eqn:E; [|discriminate].
    intros _. eapply sort_by_nil_inv. exact E.
  - intros ->. reflexivity.
Qed.

Lemma last_touch_none (evs : list event) (p : event) :
  last_touch evs p = None <-> touch_candidates evs p = [].
Proof.
  unfold last_touch. split.
  - destruct (sort_by _ (touch_candidates evs p)) eqn:E; [|discriminate].
    intros _. eapply sort_by_nil_inv. exact E.
  - intros ->. reflexivity.
Qed.

Lemma touch_has_source (evs : list event) (p t : event) :
  In t (touch_candidates evs p) -> utm_source t <> None.
Proof.
  unfold touch_candidates. rewrite filter_In. intros [_ H].
  apply candidate_inv in H. destruct H as (c & tp & tt & u & _ & _ & _ & _ & H & _).
  congruence.
Qed.

Lemma first_source_none (rev : event -> Q) (evs : list event) (p : event) :
  first_utm_source (attribute rev evs p) = None <-> touch_candidates evs p = [].
Proof.
  rewrite <- first_touch_none. simpl. split.
  - destruct (first_touch evs p) as [t|] eqn:E; [|reflexivity].
    simpl. intros H. exfalso.
    apply (@touch_has_source evs p t); [apply first_touch_is_candidate|]; assumption.
  - intros ->. reflexivity.
Qed.

Lemma last_source_none (rev : event -> Q) (evs : list event) (p : event) :
  last_utm_source (attribute rev evs p) = None <-> touch_candidates evs p = [].
Proof.
  rewrite <- last_touch_none. simpl. split.
  - destruct (last_touch evs p) as [t|] eqn:E; [|reflexivity].
    simpl. intros H. exfalso.
    apply (@touch_has_source evs p t); [apply last_touch_is_candidate|]; assumption.
  - intros ->. reflexivity.
Qed.

(** X11.  A purchase has no first-touch source exactly when it has no
    last-touch source, and exactly when no event qualifies as a touch: a
    purchase is "direct" under both models or under neither. *)
Theorem direct_iff_no_candidate (rev : event -> Q) (evs : list event)
  (p : event) :
  (first_utm_source (attribute rev evs p) = None
   <-> touch_candidates evs p = [])
  /\ (last_utm_source (attribute rev evs p) = None
      <-> first_utm_source (attribute rev evs p) = None).
Proof.
  split; [apply first_source_none|].
  rewrite first_source_none, last_source_none. tauto.
Qed.

Lemma direct_iff_no_candidate_witness :
  last_utm_source (attribute revenue_part2 [late_purchase] late_purchase) = None.
Proof.
  apply (proj2 (proj2 (direct_iff_no_candidate revenue_part2 [late_purchase]
                                               late_purchase))).
  apply (proj2 (proj1 (direct_iff_no_candidate revenue_part2 [late_purchase]
                                               late_purchase))).
  reflexivity.
Defined.

(** X12.  A purchase without a client id, or without a timestamp, is never
    attributed: all six touch fields are NULL whatever the other events. *)
Theorem anonymous_purchase_is_direct (rev : event -> Q) (evs : list event)
  (p : event) :
  client_id p = None \/ timestamp_utc p = None ->
  attribute rev evs p
  = {| purchase := p; revenue := rev p;
       first_utm_source := None; first_utm_medium := None;
       first_utm_campaign := None; last_utm_source := None;
       last_utm_medium := None; last_utm_campaign := None |}.
Proof.
  intros H.
  assert (E : touch_candidates evs p = []).
  { unfold touch_candidates. induction evs as [|t evs IH]; [reflexivity|].
    simpl. destruct (is_touch_candidate p t) eqn:Ec; [|exact IH].
    apply candidate_inv in Ec.
    destruct Ec as (c & tp & tt & u & Hc & _ & Ht & _).
    destruct H; congruence. }
  unfold attribute, first_touch, last_touch. rewrite E. reflexivity.
Qed.

Lemma anonymous_purchase_is_direct_witness :
  map last_utm_source (analytics_purchase_attribution [ad_click; anonymous_purchase])
  = [None].
Proof.
  change (map last_utm_source
              [attribute revenue_part2 [ad_click; anonymous_purchase]
                         anonymous_purchase] = [None]).
  rewrite (@anonymous_purchase_is_direct revenue_part2
             [ad_click; anonymous_purchase] anonymous_purchase
             (or_introl eq_refl)).
  reflexivity.
Defined.

Lemma reported_touch_window_aux (evs : list event) (p l : event) (tp : Z) :
  last_touch evs p = Some l -> timestamp_utc p = Some tp ->
  exists tl, timestamp_utc l = Some tl /\ tl <= tp.
Proof.
  intros El Ht. apply last_touch_is_candidate in El.
  unfold touch_candidates in El. apply filter_In in El. destruct El as [_ Hc].
  apply candidate_inv in Hc.
  destruct Hc as (c & tp' & tl & u & _ & _ & Htp & Htl & _ & Hw).
  exists tl. split; [exact Htl|]. rewrite Ht in Htp. injection Htp as <-. lia.
Qed.

(** X13.  A purchase that itself carries a [utm_source] (and has a client id
    and a timestamp) always has a last touch, and that last touch happened
    at the purchase's own timestamp. *)
Theorem purchase_is_own_last_touch (evs : list event) (p : event)
  (c u : string) (tp : Z) :
  In p evs -> client_id p = Some c -> timestamp_utc p = Some tp ->
  utm_source p = Some u ->
  exists l, last_touch evs p = Some l /\ timestamp_utc l = Some tp.
Proof.
  intros Hin Hc Ht Hu.
  assert (Hp : In p (touch_candidates evs p)).
  { unfold touch_candidates. apply filter_In. split; [exact Hin|].
    rewrite (candidate_window p p Hc Hc Ht Ht Hu).
    apply andb_true_iff. rewrite !Z.leb_le.
    unfold LOOKBACK, MICROS_PER_DAY, MICROS_PER_SEC. lia. }
  destruct (last_touch evs p) as [l|] eqn:El.
  - exists l. split; [reflexivity|].
    destruct (@reported_touch_window_aux evs p l tp El Ht) as (tl & Htl & Hle).
    destruct (@sort_by_head event
                (fun a b => ts_desc (timestamp_utc a) (timestamp_utc b))
                (fun a b => ts_desc_asym (timestamp_utc a) (timestamp_utc b))
                (fun a b d H1 H2 =>
                   ts_desc_trans (timestamp_utc a) (timestamp_utc b)
                                 (timestamp_utc d) H1 H2)
                (touch_candidates evs p) l p El Hp) as [H| ->].
    + rewrite Htl, Ht in H. simpl in H. apply Z.ltb_ge in H.
      rewrite Htl. f_equal. lia.
    + exact Ht.
  - exfalso. apply (proj2 (touch_found _ _ _ Hp)). exact El.
Qed.

Lemma purchase_is_own_last_touch_witness :
  exists l, last_touch [ad_click; day_purchase 0 100] (day_purchase 0 100) = Some l
            /\ timestamp_utc l = Some (T0 - 0 * MICROS_PER_DAY).
Proof.
  apply (@purchase_is_own_last_touch [ad_click; day_purchase 0 100]
           (day_purchase 0 100) "U1" "ads" (T0 - 0 * MICROS_PER_DAY));
    try reflexivity.
  right. left. reflexivity.
Defined.

Lemma direct_iff_no_candidate_aux (rev : event -> Q) (evs : list event)
  (p : event) :
  (first_utm_source (attribute rev evs p) = None <-> touch_candidates evs p = [])
  /\ (last_utm_source (attribute rev evs p) = None
      <-> first_utm_source (attribute rev evs p) = None).
Proof.
  split; [apply first_source_none|].
  rewrite first_source_none, last_source_none. tauto.
Qed.

(** X14.  On attributed purchases the two "assisted vs direct"
    classifications (part 2, query 6, and part 3) agree, except for a
    purchase whose first and last source are both the literal "direct":
    part 2 calls it "Single Channel", part 3 "Pure Direct". *)
Theorem conversion_types_agree (rev : event -> Q) (evs : list event)
  (p : event) :
  (first_utm_source (attribute rev evs p) = Some "direct"
   /\ last_utm_source (attribute rev evs p) = Some "direct" ->
   conversion_type (attribute rev evs p) = "Single Channel"
   /\ assisted_direct (attribute rev evs p) = "Pure Direct")
  /\ (~ (first_utm_source (attribute rev evs p) = Some "direct"
         /\ last_utm_source (attribute rev evs p) = Some "direct") ->
      conversion_type (attribute rev evs p)
      = assisted_direct (attribute rev evs p)).
Proof.
  pose proof (proj2 (direct_iff_no_candidate_aux rev evs p)) as Hnull.
  unfold conversion_type, assisted_direct, null_or_direct.
  destruct (first_utm_source (attribute rev evs p)) as [f|];
    destruct (last_utm_source (attribute rev evs p)) as [l|]; simpl.
  - split.
    + intros [Hf Hl]. injection Hf as ->. injection Hl as ->. split; reflexivity.
    + intros Hn. destruct (String.eqb_spec f "direct") as [->|Hf]; simpl;
        [|reflexivity].
      destruct (String.eqb_spec l "direct") as [->|Hl]; simpl; [|reflexivity].
      exfalso. apply Hn. split; reflexivity.
  - exfalso. assert (Some f = None) by (apply Hnull; reflexivity). discriminate.
  - exfalso. assert (Some l = None) by (apply Hnull; reflexivity). discriminate.
  - split; [intros [H _]; discriminate | reflexivity].
Qed.

Lemma conversion_types_agree_witness :
  conversion_type (attribute revenue_part2 [ad_click; late_purchase] late_purchase)
  = assisted_direct (attribute revenue_part2 [ad_click; late_purchase] late_purchase).
Proof.
  apply (proj2 (conversion_types_agree revenue_part2 [ad_click; late_purchase]
                                       late_purchase)).
  intros [H _]. discriminate H.
Defined.

(** ** Grouping *)

Section GroupBy.
Variables A K : Type.
Variable same : A -> A -> bool.
Variable kf : A -> K.
Hypothesis same_spec : forall a b, same a b = true <-> kf a = kf b.

Lemma add_to_groups_perm (e : A) (gs : list (A * list A)) :
  Permutation (List.concat (map snd (add_to_groups same e gs)))
              (e :: List.concat (map snd gs)).
Proof.
  induction gs as [|[k ms] gs IH]; simpl; [reflexivity|].
  destruct (same k e); simpl.
  - rewrite <- app_assoc. simpl. symmetry. apply Permutation_middle.
  - rewrite IH. symmetry. apply Permutation_middle.
Qed.

Lemma fold_groups_perm (l : list A) (gs : list (A * list A)) :
  Permutation
    (List.concat (map snd (fold_left (fun gs e => add_to_groups same e gs) l gs)))
    (List.concat (map snd gs) ++ l).
Proof.
  revert gs. induction l as [|e l IH]; intros gs; simpl.
  - rewrite app_nil_r. reflexivity.
  - rewrite IH, add_to_groups_perm. apply Permutation_middle.
Qed.

Lemma group_by_perm (l : list A) :
  Permutation (List.concat (map snd (group_by same l))) l.
Proof. unfold group_by. rewrite fold_groups_perm. reflexivity. Qed.

Lemma add_to_groups_keys (e : A) (gs : list (A * list A)) (x : K) :
  In x (map (fun g => kf (fst g)) (add_to_groups same e gs))
  <-> x = kf e \/ In x (map (fun g => kf (fst g)) gs).
Proof.
  induction gs as [|[k ms] gs IH]; simpl.
  - intuition congruence.
  - destruct (same k e) eqn:E; simpl.
    + apply same_spec in E. intuition congruence.
    + rewrite IH. tauto.
Qed.

Lemma add_to_groups_ok (e : A) (gs : list (A * list A)) :
  groups_ok kf gs -> groups_ok kf (add_to_groups same e gs).
Proof.
  induction gs as [|[k ms] gs IH]; intros [Hnd Hm]; simpl.
  - split; [repeat constructor; simpl; tauto|].
    intros g m [<-|[]] [<-|[]]. reflexivity.
  - inversion Hnd as [|? ? Hk Hnd']; subst.
    destruct (same k e) eqn:E.
    + split; [exact Hnd|].
      intros g m [<-|Hg] Hin.
      * simpl in Hin. apply in_app_iff in Hin. destruct Hin as [Hin|[<-|[]]].
        -- apply (Hm (k, ms) m); [left; reflexivity | exact Hin].
        -- symmetry. apply same_spec. exact E.
      * apply (Hm g m); [right; exact Hg | exact Hin].
    + assert (Hok : groups_ok kf gs).
      { split; [exact Hnd'|]. intros g m Hg. apply Hm. right. exact Hg. }
      destruct (IH Hok) as [Hnd2 Hm2]. split.
      * simpl. constructor; [|exact Hnd2].
        rewrite add_to_groups_keys. intros [H|H]; [|exact (Hk H)].
        assert (same k e = true) by (apply same_spec; exact H). congruence.
      * intros g m [<-|Hg] Hin.
        -- apply (Hm (k, ms) m); [left; reflexivity | exact Hin].
        -- apply Hm2; assumption.
Qed.

Lemma group_by_ok (l : list A) : groups_ok kf (group_by same l).
Proof.
  unfold group_by.
  assert (H : forall gs, groups_ok kf gs ->
               groups_ok kf (fold_left (fun gs e => add_to_groups same e gs) l gs)).
  { induction l as [|e l IH]; simpl; intros gs Hgs; [exact Hgs|].
    apply IH. apply add_to_groups_ok. exact Hgs. }
  apply H. split; [constructor | intros g m []].
Qed.
End GroupBy.

Lemma list_sum_perm (l l' : list nat) :
  Permutation l l' -> list_sum l = list_sum l'.
Proof. induction 1; simpl; lia. Qed.

Lemma list_sum_lengths {A : Type} (ls : list (list A)) :
  list_sum (map (@List.length A) ls) = List.length (List.concat ls).
Proof.
  induction ls as [|x ls IH]; simpl; [reflexivity|].
  rewrite length_app, IH. reflexivity.
Qed.

Lemma channel_rollup_perm (col : attributed_purchase -> option string)
  (rows : list attributed_purchase) :
  Permutation
    (channel_rollup col rows)
    (map (fun g =>
            {| channel := channel_of col (fst g);
               channel_revenue := sql_sum (map (fun a => Some (revenue a)) (snd g));
               purchases := List.length (snd g) |})
         (group_by (fun a b => String.eqb (channel_of col a) (channel_of col b))
                   rows)).
Proof. unfold channel_rollup. apply sort_by_perm. Qed.

(** X15.  A channel rollup lists every channel once, every attributed
    purchase falls in a listed channel (NULL source as "direct"), and the
    purchase counts of the channels add up to the number of attributed
    purchases. *)
Theorem channel_rollup_counts (col : attributed_purchase -> option string)
  (rows : list attributed_purchase) :
  NoDup (map channel (channel_rollup col rows))
  /\ (forall a, In a rows ->
                In (coalesce (col a) "direct") (map channel (channel_rollup col rows)))
  /\ list_sum (map purchases (channel_rollup col rows)) = List.length rows.
Proof.
  pose proof (channel_rollup_perm col rows) as Hp.
  pose proof (@group_by_ok _ _ _ (channel_of col)
                (fun a b => String.eqb_eq (channel_of col a) (channel_of col b))
                rows) as [Hnd Hm].
  pose proof (group_by_perm
                (fun a b => String.eqb (channel_of col a) (channel_of col b)) rows)
    as Hg.
  split; [|split].
  - eapply Permutation_NoDup;
      [apply Permutation_map; symmetry; exact Hp|].
    rewrite map_map. simpl. exact Hnd.
  - intros a Ha.
    eapply Permutation_in; [apply Permutation_map; symmetry; exact Hp|].
    rewrite map_map. simpl.
    apply (Permutation_in _ (Permutation_sym Hg)) in Ha.
    apply in_concat in Ha. destruct Ha as [ms [Hms Ha]].
    apply in_map_iff in Hms. destruct Hms as [g [<- Hgin]].
    apply in_map_iff. exists g. split; [|exact Hgin].
    symmetry. apply (Hm g a Hgin Ha).
  - rewrite (list_sum_perm (Permutation_map purchases Hp)).
    rewrite map_map. simpl.
    rewrite <- (map_map snd (@List.length attributed_purchase)).
    rewrite list_sum_lengths. apply Permutation_length. exact Hg.
Qed.

Lemma channel_rollup_counts_witness :
  In "ads" (map channel (analytics_channel_revenue_last_click
                           [ad_click; late_purchase])).
Proof.
  apply (proj1 (proj2 (channel_rollup_counts
                         last_utm_source
                         (analytics_purchase_attribution [ad_click; late_purchase])))
           (attribute revenue_part2 [ad_click; late_purchase] late_purchase)).
  left. reflexivity.
Defined.

(** ** Monitor *)

Lemma Qlt_bool_iff (a b : Q) : Qlt_bool a b = true <-> (a < b)%Q.
Proof.
  unfold Qlt_bool. rewrite negb_true_iff, <- not_true_iff_false, Qle_bool_iff.
  split; [apply Qnot_le_lt | apply Qlt_not_le].
Qed.

Lemma sum_flags_range (l : list Z) :
  (forall x, In x l -> x = 0 \/ x = 1) ->
  0 <= fold_right Z.add 0 l <= Z.of_nat (List.length l).
Proof.
  induction l as [|x l IH]; simpl List.length; simpl fold_right; intros H; [lia|].
  assert (Hx : x = 0 \/ x = 1) by (apply H; left; reflexivity).
  assert (Hl : 0 <= fold_right Z.add 0 l <= Z.of_nat (List.length l)).
  { apply IH. intros y Hy. apply H. right. exact Hy. }
  lia.
Qed.

Lemma sql_avg_range (l : list Z) (q : Q) :
  (forall x, In x l -> x = 0 \/ x = 1) ->
  sql_avg l = Some q -> (0 <= q <= 1)%Q.
Proof.
  intros H. pose proof (sum_flags_range l H) as Hs.
  unfold sql_avg. destruct l as [|x l'] eqn:El; [discriminate|].
  rewrite <- El in *. intros E. injection E as <-.
  assert (Hp : Z.pos (Pos.of_nat (List.length l)) = Z.of_nat (List.length l)).
  { rewrite <- positive_nat_Z, Nat2Pos.id; [reflexivity|].
    rewrite El. discriminate. }
  unfold Qle. cbn [Qnum Qden]. rewrite Hp. lia.
Qed.

Lemma fraction_range (n m : Z) (q : Q) :
  0 <= n <= m ->
  sql_div (Some (inject_Z n)) (Some (inject_Z m)) = Some q -> (0 <= q <= 1)%Q.
Proof.
  intros Hn. unfold sql_div. destruct (Qeq_bool _ 0) eqn:E; [discriminate|].
  intros H. injection H as <-. apply Qeq_bool_neq in E.
  assert (Hm : 0 < m).
  { destruct (Z.eq_dec m 0) as [->|]; [exfalso; apply E; reflexivity | lia]. }
  assert (Hq : (0 < inject_Z m)%Q).
  { change 0%Q with (inject_Z 0). rewrite <- Zlt_Qlt. exact Hm. }
  split.
  - apply Qle_shift_div_l; [exact Hq|]. rewrite Qmult_0_l.
    change 0%Q with (inject_Z 0). rewrite <- Zle_Qle. lia.
  - apply Qle_shift_div_r; [exact Hq|]. rewrite Qmult_1_l.
    rewrite <- Zle_Qle. lia.
Qed.

(** X17.  The three integrity rates the monitor compares with its
    thresholds are fractions: each lies between 0 and 1. *)
Theorem monitor_rates_are_fractions (evs : list event) (q : Q) :
  null_client_rate evs = Some q \/ json_error_rate evs = Some q
  \/ dup_rate evs = Some q ->
  (0 <= q <= 1)%Q.
Proof.
  intros [H|[H|H]].
  - eapply sql_avg_range; [|exact H].
    intros x Hx. apply in_map_iff in Hx. destruct Hx as [e [<- _]].
    destruct (is_some (client_id e)); auto.
  - eapply sql_avg_range; [|exact H].
    intros x Hx. apply in_map_iff in Hx. destruct Hx as [e [<- _]].
    destruct (_ && _); auto.
  - eapply fraction_range; [|exact H].
    pose proof (filter_length_le
                  (fun g : event * list event => (1 <? List.length (snd g))%nat)
                  (group_by same_dup_group evs)). lia.
Qed.

Lemma monitor_rates_are_fractions_witness : (0 <= 1 <= 1)%Q.
Proof.
  apply (@monitor_rates_are_fractions [anonymous_purchase] 1%Q).
  left. reflexivity.
Defined.

Lemma monitor_returns_witness :
  exists r, monitor one_day (analytics_purchase_attribution one_day) = Ok r.
Proof.
  apply (@monitor_returns one_day (analytics_purchase_attribution one_day)
           (day_purchase 0 100) (T0 - 0 * MICROS_PER_DAY)).
  - left. reflexivity.
  - reflexivity.
Defined.

Lemma zero_row_alert_unreachable_witness :
  ~ In (CRITICAL, No_events_ingested_today)
       [(WARN, High_null_client_id_rate 1);
        (WARN, Direct_traffic_unusually_high (10 # 10))].
Proof.
  apply (@zero_row_alert_unreachable
           [anonymous_purchase]
           (analytics_purchase_attribution [anonymous_purchase])
           {| date := 20089;
              alerts := [(WARN, High_null_client_id_rate 1);
                         (WARN, Direct_traffic_unusually_high (10 # 10))];
              status := PASS |}).
  reflexivity.
Defined.

Lemma monitor_without_dates_witness :
  monitor [undated_click] [] = Raise ValueError.
Proof.
  apply (@monitor_without_dates [undated_click] []).
  intros e [<-|[]]. reflexivity.
Defined.

(** X21.  A report holds the CRITICAL "No purchases recorded today" alert
    exactly when the event table has no purchase event, and its status is
    then FAIL. *)
Theorem no_purchases_is_critical (evs : list event)
  (ps : list attributed_purchase) (r : report) :
  monitor evs ps = Ok r ->
  (In (CRITICAL, No_purchases_recorded_today) (alerts r)
   <-> filter is_purchase evs = [])
  /\ (filter is_purchase evs = [] -> status r = FAIL).
Proof.
  intros H.
  assert (Hiff : In (CRITICAL, No_purchases_recorded_today) (alerts r)
                 <-> filter is_purchase evs = []).
  { destruct (monitor_report _ _ H) as (_ & _ & b2 & q2 & b3 & q3 & b4 & q4 & Ha).
    rewrite Ha, !in_app_iff. split.
    - intros [Hy|[Hy|[Hy|[Hy|[Hy|Hy]]]]].
      + unfold pipeline_health in Hy. apply in_app_iff in Hy.
        destruct Hy as [Hy|Hy].
        * destruct (_ =? _)%nat; [destruct Hy as [Hy|[]]; discriminate Hy | destruct Hy].
        * destruct (filter is_purchase evs); [reflexivity | destruct Hy].
      + apply In_when in Hy. discriminate Hy.
      + apply In_when in Hy. discriminate Hy.
      + apply In_when in Hy. discriminate Hy.
      + apply In_revenue_drop_check in Hy.
        destruct Hy as (_ & l & b & Hy). discriminate Hy.
      + apply In_direct_share_check in Hy.
        destruct Hy as [(s & Hy)|Hy]; discriminate Hy.
    - intros E. left. unfold pipeline_health. rewrite E. apply in_app_iff.
      right. left. reflexivity. }
  split; [exact Hiff|].
  intros E. destruct (monitor_report _ _ H) as (_ & Hs & _).
  rewrite Hs. apply report_status_FAIL.
  exists No_purchases_recorded_today. apply Hiff. exact E.
Qed.

Lemma no_purchases_is_critical_witness :
  exists r, run_monitor [click T0] = Ok r /\ status r = FAIL.
Proof.
  eexists. split; [reflexivity|].
  apply (proj2 (@no_purchases_is_critical
                  [click T0] (analytics_purchase_attribution [click T0]) _ eq_refl)).
  reflexivity.
Defined.

Lemma sql_max_spec (l : list (option Z)) (m : Z) :
  sql_max l = Some m ->
  In (Some m) l /\ forall x, In (Some x) l -> x <= m.
Proof.
  revert m. induction l as [|y l IH]; simpl; intros m; [discriminate|].
  destruct y as [a|].
  - destruct (sql_max l) as [b|] eqn:E.
    + intros H. injection H as <-. destruct (IH b eq_refl) as [Hin Hle]. split.
      * destruct (Z.max_spec a b) as [[_ ->]|[_ ->]]; [right; exact Hin | left; reflexivity].
      * intros x [Hx|Hx]; [injection Hx as ->; lia|].
        specialize (Hle x Hx). lia.
    + intros H. injection H as <-. split; [left; reflexivity|].
      intros x [Hx|Hx]; [injection Hx as ->; lia|].
      pose proof (sql_max_nil_inv _ E _ Hx). discriminate.
  - intros H. destruct (IH m H) as [Hin Hle]. split; [right; exact Hin|].
    intros x [Hx|Hx]; [discriminate | apply Hle; exact Hx].
Qed.

(** X22.  The date of a report is the latest calendar day on which any
    event has a timestamp. *)
Theorem report_date_is_latest_day (evs : list event)
  (ps : list attributed_purchase) (r : report) :
  monitor evs ps = Ok r ->
  (exists e t, In e evs /\ timestamp_utc e = Some t
               /\ date r = t / MICROS_PER_DAY)
  /\ (forall e t, In e evs -> timestamp_utc e = Some t ->
                  t / MICROS_PER_DAY <= date r).
Proof.
  unfold monitor.
  destruct (sql_max _) as [d|] eqn:Hd; [|discriminate].
  destruct (gt_or_raise (null_client_rate evs) _) as [b2|] ; [|discriminate].
  destruct (gt_or_raise (dup_rate evs) _) as [b3|]; [|discriminate].
  destruct (gt_or_raise (json_error_rate evs) _) as [b4|]; [|discriminate].
  simpl. intros H. injection H as <-. simpl.
  destruct (sql_max_spec _ Hd) as [Hin Hle]. split.
  - apply in_map_iff in Hin. destruct Hin as [e [He Hin]].
    destruct (timestamp_utc e) as [t|] eqn:Et; [|discriminate].
    simpl in He. injection He as <-. exists e, t. auto.
  - intros e t Hin' Et. apply Hle. apply in_map_iff. exists e.
    rewrite Et. split; [reflexivity | exact Hin'].
Qed.

Lemma report_date_is_latest_day_witness :
  exists e t, In e eight_days /\ timestamp_utc e = Some t
              /\ 20089 = t / MICROS_PER_DAY.
Proof.
  apply (proj1 (@report_date_is_latest_day
                  eight_days (analytics_purchase_attribution eight_days)
                  {| date := 20089; alerts := []; status := PASS |}
                  ltac:(vm_compute; reflexivity))).
Defined.

Lemma revenue_drop_alert_inv (dr : list (option Z * option Q))
  (y : severity * message) :
  In y (revenue_drop_alert dr) ->
  exists d latest baseline,
    y = (CRITICAL, Revenue_drop_detected latest baseline)
    /\ nth_error dr 0 = Some (d, Some latest)
    /\ mean (map snd (firstn BASELINE_DAYS (skipn 1 dr))) = Some baseline
    /\ (0 < baseline)%Q
    /\ (MAX_REV_DROP < (baseline - latest) / baseline)%Q.
Proof.
  unfold revenue_drop_alert.
  destruct (nth_error dr 0) as [[d [latest|]]|]; try contradiction.
  destruct (mean _) as [baseline|]; [|contradiction].
  destruct (Qlt_bool 0 baseline) eqn:E1; [|contradiction].
  destruct (Qlt_bool MAX_REV_DROP _) eqn:E2; [|contradiction].
  intros [<-|[]]. exists d, latest, baseline.
  apply Qlt_bool_iff in E1. apply Qlt_bool_iff in E2. auto.
Qed.

(** X23.  A revenue-drop alert is raised only with at least
    [BASELINE_DAYS + 1] rows of daily revenue, a positive baseline and a
    latest revenue below 60% of the baseline; the alert carries the latest
    day's revenue and the mean of the (up to seven) days before it. *)
Theorem revenue_drop_alert_conditions (evs : list event)
  (latest baseline : Q) :
  In (CRITICAL, Revenue_drop_detected latest baseline) (revenue_drop_check evs) ->
  (BASELINE_DAYS + 1 <= List.length (daily_rev evs))%nat
  /\ (0 < baseline)%Q
  /\ (latest < (60 # 100) * baseline)%Q
  /\ (exists d, nth_error (daily_rev evs) 0 = Some (d, Some latest))
  /\ mean (map snd (firstn BASELINE_DAYS (skipn 1 (daily_rev evs)))) = Some baseline.
Proof.
  unfold revenue_drop_check.
  destruct (Nat.ltb_spec BASELINE_DAYS (List.length (daily_rev evs))) as [Hlt|Hge];
    [|contradiction].
  intros H. apply revenue_drop_alert_inv in H.
  destruct H as (d & l & b & Heq & Hn & Hm & Hb & Hd).
  injection Heq as <- <-.
  split; [lia|]. split; [exact Hb|]. split; [|split; [exists d; exact Hn | exact Hm]].
  apply (Qmult_lt_compat_r _ _ baseline Hb) in Hd.
  assert (Hnz : ~ (baseline == 0)%Q) by (intros E; rewrite E in Hb; discriminate Hb).
  unfold Qdiv in Hd. rewrite <- Qmult_assoc, (Qmult_comm (/ baseline)) in Hd.
  rewrite Qmult_inv_r, Qmult_1_r in Hd by exact Hnz.
  unfold MAX_REV_DROP in Hd. lra.
Qed.

Lemma revenue_drop_alert_conditions_witness :
  (BASELINE_DAYS + 1 <= List.length (daily_rev week_with_drop))%nat
  /\ (0 < 700 # 7)%Q.
Proof.
  destruct (@revenue_drop_alert_conditions week_with_drop (20 * 1)%Q (700 # 7)%Q)
    as (H1 & H2 & _).
  - vm_compute. left. reflexivity.
  - split; [exact H1 | exact H2].
Defined.



(** ** Device, operating system and browser *)

(** X25.  The device class is always one of the four labels. *)
Theorem device_type_range (ua : option string) :
  In (device_type ua) ["tablet"; "mobile"; "desktop"; "unknown"].
Proof.
  unfold device_type.
  repeat match goal with
         | |- context [if ?b then _ else _] => destruct b
         end; simpl; tauto.
Qed.

(** X26.  The three classifications are consistent: an iOS or Android user
    agent is never a desktop or unknown device, and "Safari" and "Chrome"
    are reported only without a "chrome", respectively "edg", token. *)
Theorem os_device_browser_consistent (ua : option string) :
  (os ua = "iOS" \/ os ua = "Android" ->
   device_type ua = "tablet" \/ device_type ua = "mobile")
  /\ (browser ua = "Safari" -> ua_like ua "chrome" = false)
  /\ (browser ua = "Chrome" -> ua_like ua "edg" = false).
Proof.
  unfold os, device_type, browser.
  destruct (ua_like ua "iphone"), (ua_like ua "ipad"), (ua_like ua "android"),
    (ua_like ua "mobile"); simpl.
  all: split; [auto; try (intros [H|H]; revert H;
         repeat match goal with
                | |- context [if ?b then _ else _] => destruct b
                end; discriminate)|].
  all: destruct (ua_like ua "crios"), (ua_like ua "fxios"), (ua_like ua "edgios"),
         (ua_like ua "chrome"), (ua_like ua "edg"), (ua_like ua "safari"),
         (ua_like ua "firefox"); simpl; split; intros H;
         try reflexivity; discriminate H.
Qed.

Lemma os_device_browser_consistent_witness :
  device_type (Some "Mozilla/5.0 (Linux; Android 12; SM-X200) Safari/537.36")
  = "tablet"
  \/ device_type (Some "Mozilla/5.0 (Linux; Android 12; SM-X200) Safari/537.36")
     = "mobile".
Proof.
  apply (proj1 (os_device_browser_consistent
                  (Some "Mozilla/5.0 (Linux; Android 12; SM-X200) Safari/537.36"))).
  right. reflexivity.
Defined.

(** ** Payload helpers *)

Lemma truthy_num (q : Q) : ~ (q == 0)%Q -> truthy (JNum q) = true.
Proof.
  intros H. simpl. apply negb_true_iff. apply Z.eqb_neq. intros E.
  apply H. unfold Qeq. simpl. rewrite E. reflexivity.
Qed.

(** X27.  For a payload with a non-zero numeric "price" and "quantity", the
    cleaned [price] is the unit price and [total] is price times quantity;
    so part 3 records the unit price as revenue and part 2 the unit price
    times the quantity. *)
Theorem revenue_models_differ_by_quantity (e : event)
  (d : list (string * json)) (pr q : Q) :
  event_data_parsed e = JObj d ->
  dict_lookup "price" d = Some (JNum pr) ->
  dict_lookup "quantity" d = Some (JNum q) ->
  ~ (pr == 0)%Q -> ~ (q == 0)%Q ->
  price e = Some pr /\ quantity e = Some q /\ total e = Some (pr * q)%Q
  /\ revenue_part3 e = pr /\ revenue_part2 e = (pr * q)%Q.
Proof.
  intros Hd Hp Hq Hpr Hqn.
  assert (Ep : extract_price (event_data_parsed e) = Some pr).
  { rewrite Hd. simpl. rewrite Hp. reflexivity. }
  assert (Eq : quantity_raw e = JNum q).
  { unfold quantity_raw, py_or, get_key. rewrite Hd, Hq. simpl coalesce.
    rewrite (truthy_num Hqn). reflexivity. }
  assert (Eu : unit_price e = JNum pr).
  { unfold unit_price, py_or. rewrite Ep. simpl of_float.
    rewrite (truthy_num Hpr). reflexivity. }
  assert (Epr : price e = Some pr) by (unfold price; rewrite Ep; reflexivity).
  assert (Et : total e = Some (pr * q)%Q)
    by (unfold total; rewrite Eu, Eq; reflexivity).
  unfold revenue_part3, revenue_part2, quantity.
  rewrite Epr, Et, Eq. repeat split.
Qed.

Lemma revenue_models_differ_by_quantity_witness :
  revenue_part3 two_items = 10%Q /\ revenue_part2 two_items = (10 * 2)%Q.
Proof.
  destruct (@revenue_models_differ_by_quantity
              two_items [("price", JNum 10); ("quantity", JNum 2)] 10%Q 2%Q
              eq_refl eq_refl eq_refl) as (_ & _ & _ & H3 & H2).
  - unfold Qeq. simpl. lia.
  - unfold Qeq. simpl. lia.
  - split; [exact H3 | exact H2].
Defined.

(** X28.  Summing a numeric field over the items is all or nothing: the sum
    fails exactly when some item value other than null cannot be read as a
    number (null values are skipped). *)
Theorem sum_floats_all_or_nothing (values : list json) (acc : Q) :
  sum_floats acc values = None
  <-> exists v, In v values /\ v <> JNull /\ py_float v = None.
Proof.
  revert acc. induction values as [|v vs IH]; intros acc.
  - simpl. split; [discriminate | intros [v [[] _]]].
  - assert (Hstep : forall x, py_float v = Some x ->
               sum_floats acc (v :: vs) = sum_floats (acc + x) vs).
    { intros x Hx. destruct v; simpl in Hx |- *; try discriminate;
        try (injection Hx as <-; reflexivity); rewrite Hx; reflexivity. }
    assert (Hnull : v = JNull -> sum_floats acc (v :: vs) = sum_floats acc vs).
    { intros ->. reflexivity. }
    assert (Hfail : v <> JNull -> py_float v = None ->
               sum_floats acc (v :: vs) = None).
    { intros Hn Hx. destruct v; simpl in *; try congruence; rewrite ?Hx; reflexivity. }
    destruct v as [| b | n | s | l | o] eqn:Ev.
    + rewrite (Hnull eq_refl), IH. split.
      * intros [w [Hw H]]. exists w. split; [right; exact Hw | exact H].
      * intros [w [[<-|Hw] [Hn H]]]; [congruence | exists w; auto].
    + rewrite (Hstep _ eq_refl), IH. split.
      * intros [w [Hw H]]. exists w. split; [right; exact Hw | exact H].
      * intros [w [[<-|Hw] [Hn H]]]; [discriminate H | exists w; auto].
    + rewrite (Hstep _ eq_refl), IH. split.
      * intros [w [Hw H]]. exists w. split; [right; exact Hw | exact H].
      * intros [w [[<-|Hw] [Hn H]]]; [discriminate H | exists w; auto].
    + destruct (py_float (JStr s)) as [x|] eqn:Ex.
      * rewrite (Hstep _ eq_refl), IH. split.
        -- intros [w [Hw H]]. exists w. split; [right; exact Hw | exact H].
        -- intros [w [[<-|Hw] [Hn H]]]; [congruence | exists w; auto].
      * rewrite Hfail by (congruence || discriminate). split; [|reflexivity].
        intros _. exists (JStr s). split; [left; reflexivity|].
        split; [discriminate | exact Ex].
    + rewrite Hfail by (reflexivity || discriminate). split; [|reflexivity].
      intros _. exists (JArr l). split; [left; reflexivity|].
      split; [discriminate | reflexivity].
    + rewrite Hfail by (reflexivity || discriminate). split; [|reflexivity].
      intros _. exists (JObj o). split; [left; reflexivity|].
      split; [discriminate | reflexivity].
Qed.

(** ** Part 1: purchase price validity *)

Lemma filter_nil_iff {A : Type} (f : A -> bool) (l : list A) :
  filter f l = [] <-> forall x, In x l -> f x = false.
Proof.
  induction l as [|a l IH]; simpl.
  - split; [intros _ x [] | reflexivity].
  - destruct (f a) eqn:E.
    + split; [discriminate|]. intros H. specialize (H a (or_introl eq_refl)).
      congruence.
    + rewrite IH. split.
      * intros H x [<-|Hx]; [exact E | apply H; exact Hx].
      * intros H x Hx. apply H. right. exact Hx.
Qed.

Lemma filter_length_mono {A : Type} (f g : A -> bool) (l : list A) :
  (forall x, f x = true -> g x = true) ->
  (List.length (filter f l) <= List.length (filter g l))%nat.
Proof.
  intros H. induction l as [|a l IH]; simpl; [lia|].
  destruct (f a) eqn:E.
  - rewrite (H a E). simpl. lia.
  - destruct (g a); simpl; lia.
Qed.

(** X29.  In the purchase price check every missing price is also counted
    as "zero or negative", and the check passes exactly when every purchase
    event has a price that is present and strictly positive. *)
Theorem purchase_price_validation_pass (evs : list event) :
  (price_missing evs <= price_zero_neg evs)%nat
  /\ (purchase_price_validation evs = "pass"
      <-> forall e, In e evs -> is_purchase e = true ->
            exists q, extract_price (event_data_parsed e) = Some q /\ (0 < q)%Q).
Proof.
  assert (Hle : (price_missing evs <= price_zero_neg evs)%nat).
  { unfold price_missing, price_zero_neg. apply filter_length_mono.
    intros e. destruct (extract_price (event_data_parsed e)); [discriminate|].
    reflexivity. }
  split; [exact Hle|].
  unfold purchase_price_validation.
  assert (Hz : price_zero_neg evs = 0%nat
               <-> forall e, In e evs -> is_purchase e = true ->
                     exists q, extract_price (event_data_parsed e) = Some q
                               /\ (0 < q)%Q).
  { unfold price_zero_neg. rewrite length_zero_iff_nil, filter_nil_iff. split.
    - intros H e He Hp.
      assert (Hin : In e (filter is_purchase evs)) by (apply filter_In; auto).
      specialize (H e Hin).
      destruct (extract_price (event_data_parsed e)) as [q|]; simpl in H.
      + exists q. split; [reflexivity|]. apply Qlt_bool_iff.
        unfold Qlt_bool. rewrite H. reflexivity.
      + discriminate H.
    - intros H e He. apply filter_In in He. destruct He as [He Hp].
      destruct (H e He Hp) as [q [-> Hq]]. simpl.
      apply Qlt_bool_iff in Hq. unfold Qlt_bool in Hq.
      apply negb_true_iff in Hq. exact Hq. }
  rewrite <- Hz. split.
  - destruct (price_zero_neg evs =? 0)%nat eqn:E.
    + intros _. apply Nat.eqb_eq. exact E.
    + rewrite orb_true_r. discriminate.
  - intros E. assert (E' : price_missing evs = 0%nat) by lia.
    rewrite E, E'. reflexivity.
Qed.

Lemma purchase_price_validation_pass_witness :
  purchase_price_validation [two_items; click T0] = "pass".
Proof.
  apply (proj2 (proj2 (purchase_price_validation_pass [two_items; click T0]))).
  intros e [<-|[<-|[]]] Hp.
  - exists 10%Q. split; [reflexivity|]. unfold Qlt. simpl. lia.
  - discriminate Hp.
Defined.

Lemma sum_floats_all_or_nothing_witness :
  sum_floats 0 [JNum 2; JNull; JStr "two"] = None.
Proof.
  apply (proj2 (sum_floats_all_or_nothing [JNum 2; JNull; JStr "two"] 0)).
  exists (JStr "two"). split; [right; right; left; reflexivity|].
  split; [discriminate | reflexivity].
Defined.

(** ** Daily revenue *)

Lemma add_to_groups_heads {A : Type} (same : A -> A -> bool) (e : A)
  (gs : list (A * list A)) :
  (forall g, In g gs -> In (fst g) (snd g)) ->
  forall g, In g (add_to_groups same e gs) -> In (fst g) (snd g).
Proof.
  induction gs as [|[k ms] gs IH]; simpl; intros H g.
  - intros [<-|[]]. left. reflexivity.
  - destruct (same k e).
    + intros [<-|Hg].
      * simpl. apply in_app_iff. left. apply (H (k, ms)). left. reflexivity.
      * apply H. right. exact Hg.
    + intros [<-|Hg].
      * apply (H (k, ms)). left. reflexivity.
      * apply IH; [|exact Hg]. intros g' Hg'. apply H. right. exact Hg'.
Qed.

Lemma group_by_heads {A : Type} (same : A -> A -> bool) (l : list A) :
  forall g, In g (group_by same l) -> In (fst g) (snd g).
Proof.
  unfold group_by.
  assert (H : forall gs, (forall g, In g gs -> In (fst g) (snd g)) ->
               forall g, In g (fold_left (fun gs e => add_to_groups same e gs) l gs) ->
                         In (fst g) (snd g)).
  { induction l as [|e l IH]; simpl; intros gs Hgs; [exact Hgs|].
    apply IH. apply add_to_groups_heads. exact Hgs. }
  apply H. intros g [].
Qed.

Lemma opt_Z_eqb_spec (a b : option Z) : opt_Z_eqb a b = true <-> a = b.
Proof.
  destruct a as [x|], b as [y|]; simpl; try (split; congruence).
  rewrite Z.eqb_eq. split; congruence.
Qed.

(** X30.  [daily_rev] has exactly one row per purchase date: the dates are
    pairwise different, and a date (NULL included) is listed exactly when
    some purchase event falls on it. *)
Theorem daily_rev_one_row_per_date (evs : list event) :
  NoDup (map fst (daily_rev evs))
  /\ forall d, In d (map fst (daily_rev evs))
               <-> exists e, In e evs /\ is_purchase e = true
                             /\ DATE (timestamp_utc e) = d.
Proof.
  set (kf := fun e : event => DATE (timestamp_utc e)).
  set (same := fun a b : event => opt_Z_eqb (kf a) (kf b)).
  set (gs := group_by same (filter is_purchase evs)).
  assert (Hperm : Permutation (map fst (daily_rev evs))
                              (map (fun g => kf (fst g)) gs)).
  { unfold daily_rev. fold kf. fold same. fold gs.
    rewrite (Permutation_map fst (sort_by_perm _ _)). rewrite map_map.
    reflexivity. }
  pose proof (@group_by_ok _ _ same kf (fun a b => opt_Z_eqb_spec (kf a) (kf b))
                (filter is_purchase evs)) as [Hnd Hm].
  pose proof (group_by_perm same (filter is_purchase evs)) as Hg.
  pose proof (group_by_heads same (filter is_purchase evs)) as Hh.
  fold gs in Hnd, Hm, Hg, Hh.
  split.
  - eapply Permutation_NoDup; [symmetry; exact Hperm | exact Hnd].
  - intros d. split.
    + intros Hd. apply (Permutation_in _ Hperm) in Hd.
      apply in_map_iff in Hd. destruct Hd as [g [<- Hgin]].
      assert (Hin : In (fst g) (filter is_purchase evs)).
      { apply (Permutation_in _ Hg). apply in_concat. exists (snd g).
        split; [apply in_map; exact Hgin | apply Hh; exact Hgin]. }
      apply filter_In in Hin. exists (fst g). tauto.
    + intros [e [He [Hp <-]]].
      apply (Permutation_in _ (Permutation_sym Hperm)).
      assert (Hin : In e (List.concat (map snd gs))).
      { apply (Permutation_in _ (Permutation_sym Hg)). apply filter_In. auto. }
      apply in_concat in Hin. destruct Hin as [ms [Hms Hin]].
      apply in_map_iff in Hms. destruct Hms as [g [<- Hgin]].
      apply in_map_iff. exists g. split; [|exact Hgin].
      symmetry. apply (Hm g e Hgin Hin).
Qed.

Lemma daily_rev_one_row_per_date_witness :
  In (Some 20089) (map fst (daily_rev one_day)).
Proof.
  apply (proj2 (proj2 (daily_rev_one_row_per_date one_day) (Some 20089))).
  exists (day_purchase 0 100). split; [left; reflexivity|].
  split; reflexivity.
Defined.

Lemma drop_duplicates_distinct_keys_witness :
  In (page_view "U2") [page_view "U1"; page_view "U2"; page_view "U1"].
Proof.
  apply (proj2 (drop_duplicates_distinct_keys
                  [page_view "U1"; page_view "U2"; page_view "U1"])).
  right. left. reflexivity.
Defined.

(** ** Groups as filters *)

Section GroupMembers.
Variables A K : Type.
Variable same : A -> A -> bool.
Variable kf : A -> K.
Hypothesis same_spec : forall a b, same a b = true <-> kf a = kf b.

Lemma add_to_groups_miss (e : A) (gs : list (A * list A)) :
  (forall g, In g gs -> same (fst g) e = false) ->
  add_to_groups same e gs = gs ++ [(e, [e])].
Proof.
  induction gs as [|[k ms] gs IH]; simpl; intros H; [reflexivity|].
  pose proof (H (k, ms) (or_introl eq_refl)) as E. simpl in E. rewrite E.
  f_equal. apply IH. intros g Hg. apply H. right. exact Hg.
Qed.

Lemma add_to_groups_hit (e : A) (gs : list (A * list A)) :
  NoDup (map (fun g => kf (fst g)) gs) ->
  (exists g, In g gs /\ same (fst g) e = true) ->
  add_to_groups same e gs
  = map (fun g => if same (fst g) e then (fst g, snd g ++ [e]) else g) gs.
Proof.
  induction gs as [|[k ms] gs IH]; simpl; intros Hnd [g [Hg Hs]]; [contradiction|].
  inversion Hnd as [|? ? Hk Hnd']; subst.
  destruct (same k e) eqn:E.
  - f_equal. symmetry. rewrite <- (map_id gs) at 2. apply map_ext_in.
    intros g' Hg'. destruct (same (fst g') e) eqn:E'; [|reflexivity].
    exfalso. apply Hk. apply in_map_iff. exists g'. split; [|exact Hg'].
    apply same_spec in E. apply same_spec in E'. congruence.
  - f_equal. apply IH; [exact Hnd'|].
    destruct Hg as [<-|Hg]; [simpl in Hs; congruence|].
    exists g. split; assumption.
Qed.

(** The state of the grouping after the rows [pre]. *)
Let inv (pre : list A) (gs : list (A * list A)) : Prop :=
  NoDup (map (fun g => kf (fst g)) gs)
  /\ (forall g, In g gs -> snd g = filter (fun x => same (fst g) x) pre)
  /\ (forall x, In x pre -> exists g, In g gs /\ same (fst g) x = true).

Lemma add_to_groups_inv (pre : list A) (gs : list (A * list A)) (e : A) :
  inv pre gs -> inv (pre ++ [e]) (add_to_groups same e gs).
Proof.
  intros (Hnd & Hm & Hc).
  destruct (existsb (fun g => same (fst g) e) gs) eqn:Ex.
  - apply existsb_exists in Ex. rewrite (@add_to_groups_hit e gs Hnd Ex).
    split; [|split].
    + rewrite map_map.
      rewrite (map_ext _ (fun g => kf (fst g))); [exact Hnd|].
      intros g. destruct (same (fst g) e); reflexivity.
    + intros g' Hg'. apply in_map_iff in Hg'. destruct Hg' as [g [<- Hg]].
      rewrite filter_app. simpl.
      destruct (same (fst g) e) eqn:E; simpl; rewrite E, (Hm g Hg);
        [reflexivity | rewrite app_nil_r; reflexivity].
    + intros x Hx. apply in_app_iff in Hx. destruct Hx as [Hx|[<-|[]]].
      * destruct (Hc x Hx) as [g [Hg Hs]].
        exists (if same (fst g) e then (fst g, snd g ++ [e]) else g).
        split; [apply in_map_iff; exists g; split; [reflexivity | exact Hg]|].
        destruct (same (fst g) e); exact Hs.
      * destruct Ex as [g [Hg Hs]].
        exists (if same (fst g) e then (fst g, snd g ++ [e]) else g).
        split; [apply in_map_iff; exists g; split; [reflexivity | exact Hg]|].
        rewrite Hs. exact Hs.
  - assert (Hmiss : forall g, In g gs -> same (fst g) e = false).
    { intros g Hg. destruct (same (fst g) e) eqn:E; [|reflexivity].
      assert (existsb (fun g => same (fst g) e) gs = true); [|congruence].
      apply existsb_exists. exists g. split; assumption. }
    rewrite (@add_to_groups_miss e gs Hmiss). split; [|split].
    + rewrite map_app. simpl.
      apply (Permutation_NoDup (Permutation_cons_append _ _)).
      constructor; [|exact Hnd].
      intros Hin. apply in_map_iff in Hin. destruct Hin as [g [Hk Hg]].
      assert (same (fst g) e = true) by (apply same_spec; exact Hk).
      rewrite (Hmiss g Hg) in H. discriminate.
    + intros g Hg. apply in_app_iff in Hg. rewrite filter_app. simpl.
      destruct Hg as [Hg|[<-|[]]].
      * rewrite (Hmiss g Hg), app_nil_r. apply Hm. exact Hg.
      * simpl.
        assert (Hee : same e e = true) by (apply same_spec; reflexivity).
        rewrite Hee.
        assert (Hnone : filter (fun x => same e x) pre = []).
        { apply filter_nil_iff. intros x Hx.
          destruct (same e x) eqn:E; [|reflexivity]. exfalso.
          destruct (Hc x Hx) as [g [Hg Hs]].
          assert (same (fst g) e = true).
          { apply same_spec. apply same_spec in E. apply same_spec in Hs.
            congruence. }
          rewrite (Hmiss g Hg) in H. discriminate. }
        rewrite Hnone. reflexivity.
    + intros x Hx. apply in_app_iff in Hx. destruct Hx as [Hx|[<-|[]]].
      * destruct (Hc x Hx) as [g [Hg Hs]]. exists g.
        split; [apply in_app_iff; left; exact Hg | exact Hs].
      * exists (e, [e]). split; [apply in_app_iff; right; left; reflexivity|].
        apply same_spec. reflexivity.
Qed.

(** Each group holds exactly the rows with its key, in table order. *)
Lemma group_by_members (l : list A) (g : A * list A) :
  In g (group_by same l) -> snd g = filter (fun x => same (fst g) x) l.
Proof.
  unfold group_by.
  assert (H : forall rest pre gs, inv pre gs ->
               inv (pre ++ rest)
                   (fold_left (fun gs e => add_to_groups same e gs) rest gs)).
  { induction rest as [|e rest IH]; simpl; intros pre gs Hi.
    - rewrite app_nil_r. exact Hi.
    - replace (pre ++ e :: rest) with ((pre ++ [e]) ++ rest)
        by (rewrite <- app_assoc; reflexivity).
      apply IH. apply add_to_groups_inv. exact Hi. }
  destruct (H l [] []) as (_ & Hm & _).
  - split; [constructor|]. split; [intros ? [] | intros ? []].
  - intros Hg. apply Hm. exact Hg.
Qed.
End GroupMembers.

(** X16.  Each row of a channel rollup aggregates exactly the attributed
    purchases of its channel (NULL source as "direct"): its purchase count
    is their number, at least one, and its revenue is the SUM of their
    revenues in table order. *)
Theorem channel_rollup_rows (col : attributed_purchase -> option string)
  (rows : list attributed_purchase) (r : channel_row) :
  In r (channel_rollup col rows) ->
  purchases r
  = List.length (filter (fun a => String.eqb (channel r) (coalesce (col a) "direct"))
                        rows)
  /\ (0 < purchases r)%nat
  /\ channel_revenue r
     = sql_sum (map (fun a => Some (revenue a))
                    (filter (fun a => String.eqb (channel r)
                                                 (coalesce (col a) "direct"))
                            rows)).
Proof.
  intros Hr. apply (Permutation_in _ (channel_rollup_perm col rows)) in Hr.
  apply in_map_iff in Hr. destruct Hr as [g [<- Hg]]. simpl.
  pose proof (@group_by_members _ _ _ (channel_of col)
                (fun a b => String.eqb_eq (channel_of col a) (channel_of col b))
                rows g Hg) as Hm.
  pose proof (group_by_heads _ _ g Hg) as Hh.
  unfold channel_of in *. rewrite <- Hm. split; [reflexivity|].
  split; [|reflexivity].
  destruct (snd g); [contradiction | simpl; lia].
Qed.

Lemma channel_rollup_rows_witness :
  purchases {| channel := "direct"; channel_revenue := Some (10 * 1)%Q;
               purchases := 1 |}
  = List.length
      (filter (fun a => String.eqb "direct"
                                   (coalesce (last_utm_source a) "direct"))
              (analytics_purchase_attribution
                 [ad_click; late_purchase; anonymous_purchase])).
Proof.
  apply (@channel_rollup_rows
           last_utm_source
           (analytics_purchase_attribution
              [ad_click; late_purchase; anonymous_purchase])
           {| channel := "direct"; channel_revenue := Some (10 * 1)%Q;
              purchases := 1 |}).
  vm_compute. right. left. reflexivity.
Defined.
